(** * The user repository of go-rest-api-boilerplate

    A shallow embedding of [internal/user] (entity model, repository) over an
    explicit relational store, and the properties of its operations. *)

From Stdlib Require Import ZArith Ascii String Lia Sorted.
From stdpp Require Import base list strings gmap.

(** ** Entity model ([model.go], [role.go]) *)

(** Timestamps are instants on an integer time line; [0] is Go's zero
    [time.Time]. *)
Definition Time := Z.
Bind Scope Z_scope with Time.

Definition RoleGuest : string := "guest".
Definition RoleUser : string := "user".
Definition RoleAdmin : string := "admin".

Record Role := mkRole {
  RoleID : Z;
  RoleName : string;
  RoleDescription : string;
  RoleCreatedAt : Time;
  RoleUpdatedAt : Time
}.

Record User := mkUser {
  ID : Z;
  Name : string;
  Email : string;
  PasswordHash : string;
  Roles : list Role;
  CreatedAt : Time;
  UpdatedAt : Time;
  DeletedAt : option Time
}.

#[global] Instance Role_eq_dec : EqDecision Role.
Proof. solve_decision. Defined.

#[global] Instance User_eq_dec : EqDecision User.
Proof. solve_decision. Defined.

(** [for _, role := range u.Roles { if role.Name == roleName { return true } }]
    followed by [return false]. *)
Fixpoint HasRole_loop (roles : list Role) (roleName : string) : bool :=
  match roles with
  | [] => false
  | role :: rest =>
      if String.eqb (RoleName role) roleName then true
      else HasRole_loop rest roleName
  end.

Definition HasRole (u : User) (roleName : string) : bool :=
  HasRole_loop (Roles u) roleName.

Definition IsAdmin (u : User) : bool := HasRole u RoleAdmin.

(** [roleNames[i] = role.Name] for the roles from index [i] on. *)
Fixpoint GetRoleNames_loop (i : nat) (roles : list Role)
    (roleNames : list string) : list string :=
  match roles with
  | [] => roleNames
  | role :: rest => GetRoleNames_loop (S i) rest (<[i := RoleName role]> roleNames)
  end.

(** [make([]string, len(u.Roles))] is a slice of empty strings. *)
Definition GetRoleNames (u : User) : list string :=
  GetRoleNames_loop 0 (Roles u) (replicate (length (Roles u)) ""%string).

(** ** The relational store

    The repository talks to a relational store through bun. The store holds
    the three tables the repository reads and writes, and each statement the
    repository builds is given the meaning its SQL has: a model with a
    [soft_delete] field is read, updated and deleted among its live rows
    only; the primary keys and the unique indexes on [users.email],
    [roles.name] and the pair of [user_roles] refuse duplicates. The tables
    [users] and [user_roles] are created outside the files at hand; no
    foreign key is assumed on them. *)

Record UserRole := mkUserRole {
  UserRoleUserID : Z;
  UserRoleRoleID : Z;
  AssignedAt : Time
}.

#[global] Instance UserRole_eq_dec : EqDecision UserRole.
Proof. solve_decision. Defined.

(** A row of [users] is a [User] whose [Roles] (a many-to-many relation, not
    a column) is empty; [users_id_seq] is the sequence behind the
    auto-incremented primary key. *)
Record Store := mkStore {
  users : list User;
  users_id_seq : Z;
  roles : list Role;
  user_roles : list UserRole
}.

Inductive error :=
  | ErrNoRows                        (* sql.ErrNoRows *)
  | ErrUnique (constraint : string)  (* a uniqueness constraint refused the row *)
  | ErrSQL (msg : string)            (* the store refused the statement *)
  | ErrStore                         (* connectivity, timeout, protocol *)
  | ErrNew (msg : string).           (* errors.New(msg) *)

#[global] Instance error_eq_dec : EqDecision error.
Proof. solve_decision. Defined.

(** [errors.Is(err, target)]; no error of this package wraps another. *)
Definition errors_Is (err target : error) : bool := bool_decide (err = target).

(** *** Rows and predicates *)

Definition is_live (u : User) : bool :=
  match DeletedAt u with None => true | Some _ => false end.

Definition set_Roles (u : User) (rs : list Role) : User :=
  mkUser (ID u) (Name u) (Email u) (PasswordHash u) rs
         (CreatedAt u) (UpdatedAt u) (DeletedAt u).

Definition set_DeletedAt (u : User) (d : option Time) : User :=
  mkUser (ID u) (Name u) (Email u) (PasswordHash u) (Roles u)
         (CreatedAt u) (UpdatedAt u) d.

(** *** The LIKE operator

    PostgreSQL's LIKE with its default escape character, the backslash: [%]
    matches any run of characters, [_] any one character, and a backslash
    makes the character after it literal. A pattern that ends in a lone
    backslash is refused by the store; no pattern built by the repository
    ends so, and the matcher answers [false] there. *)
Fixpoint like (pattern : string) : string -> bool :=
  match pattern with
  | EmptyString => fun s => match s with EmptyString => true | _ => false end
  | String c p =>
      if Ascii.eqb c "%" then
        fix any (s : string) : bool :=
          like p s || match s with EmptyString => false | String _ s' => any s' end
      else if Ascii.eqb c "_" then
        fun s => match s with EmptyString => false | String _ s' => like p s' end
      else if Ascii.eqb c "\" then
        match p with
        | EmptyString => fun _ => false
        | String d p' =>
            fun s => match s with
                     | EmptyString => false
                     | String x s' => Ascii.eqb x d && like p' s'
                     end
        end
      else
        fun s => match s with
                 | EmptyString => false
                 | String x s' => Ascii.eqb x c && like p s'
                 end
  end.

(** [strings.ReplaceAll(s, old, new)] for a one-byte [old], the only way the
    repository calls it. *)
Fixpoint ReplaceAll (s : string) (old : ascii) (new : string) : string :=
  match s with
  | EmptyString => EmptyString
  | String c s' =>
      if Ascii.eqb c old then new +:+ ReplaceAll s' old new
      else String c (ReplaceAll s' old new)
  end.

(** *** Queries over [users] *)

(** The select query as the repository builds it: an optional join with
    [user_roles] and [roles] restricted to one role name, and an optional
    pattern matched against name or email. *)
Record SelectQuery := mkSelectQuery {
  join_role : option string;
  where_like : option string
}.

Definition NewSelect : SelectQuery := mkSelectQuery None None.

Definition JoinsRole (q : SelectQuery) (name : string) : SelectQuery :=
  mkSelectQuery (Some name) (where_like q).

Definition WhereLike (q : SelectQuery) (pattern : string) : SelectQuery :=
  mkSelectQuery (join_role q) (Some pattern).

Definition matches_like (q : SelectQuery) (u : User) : bool :=
  match where_like q with
  | None => true
  | Some pattern => like pattern (Name u) || like pattern (Email u)
  end.

(** The rows of [roles] joined to one association row and carrying [name]. *)
Definition roles_joined (st : Store) (name : string) (ur : UserRole) : list Role :=
  List.filter (fun r => (RoleID r =? UserRoleRoleID ur)%Z && String.eqb (RoleName r) name)
              (roles st).

(** The association rows of one user. *)
Definition user_roles_of (st : Store) (uid : Z) : list UserRole :=
  List.filter (fun ur => (UserRoleUserID ur =? uid)%Z) (user_roles st).

(** The rows one user contributes to the joined relation: one per matching
    pair of association row and role row, or the user row itself when there
    is no join. *)
Definition user_join (st : Store) (q : SelectQuery) (u : User) : list User :=
  match join_role q with
  | None => [u]
  | Some name =>
      flat_map (fun ur => List.map (fun _ => u) (roles_joined st name ur))
               (user_roles_of st (ID u))
  end.

(** The joined, filtered relation before DISTINCT; soft-deleted rows are
    left out, as bun does for a model with a [soft_delete] field. *)
Definition joined_rows (st : Store) (q : SelectQuery) : list User :=
  flat_map (user_join st q)
           (List.filter (fun u => is_live u && matches_like q u) (users st)).

(** The roles of one user through the association table:
    [roles JOIN user_roles ON user_roles.role_id = roles.id
     WHERE user_roles.user_id = uid]. *)
Definition roles_of (st : Store) (uid : Z) : list Role :=
  flat_map (fun r =>
              List.map (fun _ => r)
                (List.filter (fun ur => (UserRoleRoleID ur =? RoleID r)%Z)
                             (user_roles_of st uid)))
           (roles st).

(** [Relation("Roles")]: the row with its roles loaded. *)
Definition with_roles (st : Store) (u : User) : User :=
  set_Roles u (roles_of st (ID u)).

(** *** Statements

    Each statement is a function of the store; a statement that fails leaves
    the store as it was. *)

Definition set_users (st : Store) (us : list User) : Store :=
  mkStore us (users_id_seq st) (roles st) (user_roles st).

Definition set_user_roles (st : Store) (urs : list UserRole) : Store :=
  mkStore (users st) (users_id_seq st) (roles st) urs.

(** [INSERT INTO users ...] for a model: a zero id takes the next value of
    the sequence, zero timestamps take the current time (their columns are
    [nullzero] with default [current_timestamp]); the primary key and the
    unique index on [email] refuse duplicates. The model comes back with the
    generated values. *)
Definition insert_user (now : Time) (u : User) (st : Store) : error + (User * Store) :=
  let seq := if (ID u =? 0)%Z then (users_id_seq st + 1)%Z else users_id_seq st in
  let id := if (ID u =? 0)%Z then seq else ID u in
  let created := if (CreatedAt u =? 0)%Z then now else CreatedAt u in
  let updated := if (UpdatedAt u =? 0)%Z then now else UpdatedAt u in
  let row := mkUser id (Name u) (Email u) (PasswordHash u) [] created updated (DeletedAt u) in
  if existsb (fun x => (ID x =? id)%Z) (users st) then inl (ErrUnique "users_pkey")
  else if existsb (fun x => String.eqb (Email x) (Email u)) (users st)
       then inl (ErrUnique "users_email_key")
  else inr (set_Roles row (Roles u),
            mkStore (users st ++ [row]) seq (roles st) (user_roles st)).

(** The first live row that satisfies [p], with its roles loaded. *)
Definition select_user (p : User -> bool) (st : Store) : error + (User * Store) :=
  match List.filter (fun u => is_live u && p u) (users st) with
  | [] => inl ErrNoRows
  | u :: _ => inr (with_roles st u, st)
  end.

(** [SET col = <the model's value>] for one column of the [Column(...)] list;
    a name that is no column of [users] is refused. *)
Definition set_column (col : string) (model row : User) : option User :=
  if String.eqb col "name" then
    Some (mkUser (ID row) (Name model) (Email row) (PasswordHash row) (Roles row)
                 (CreatedAt row) (UpdatedAt row) (DeletedAt row))
  else if String.eqb col "email" then
    Some (mkUser (ID row) (Name row) (Email model) (PasswordHash row) (Roles row)
                 (CreatedAt row) (UpdatedAt row) (DeletedAt row))
  else if String.eqb col "password_hash" then
    Some (mkUser (ID row) (Name row) (Email row) (PasswordHash model) (Roles row)
                 (CreatedAt row) (UpdatedAt row) (DeletedAt row))
  else if String.eqb col "updated_at" then
    Some (mkUser (ID row) (Name row) (Email row) (PasswordHash row) (Roles row)
                 (CreatedAt row) (UpdatedAt model) (DeletedAt row))
  else if String.eqb col "id" then
    Some (mkUser (ID model) (Name row) (Email row) (PasswordHash row) (Roles row)
                 (CreatedAt row) (UpdatedAt row) (DeletedAt row))
  else if String.eqb col "created_at" then
    Some (mkUser (ID row) (Name row) (Email row) (PasswordHash row) (Roles row)
                 (CreatedAt model) (UpdatedAt row) (DeletedAt row))
  else if String.eqb col "deleted_at" then
    Some (mkUser (ID row) (Name row) (Email row) (PasswordHash row) (Roles row)
                 (CreatedAt row) (UpdatedAt row) (DeletedAt model))
  else None.

Fixpoint set_columns (cols : list string) (model row : User) : option User :=
  match cols with
  | [] => Some row
  | col :: rest =>
      match set_column col model row with
      | None => None
      | Some row' => set_columns rest model row'
      end
  end.

(** [UPDATE users SET cols WHERE id = ? AND deleted_at IS NULL], row by row. *)
Fixpoint update_rows (cols : list string) (model : User) (id : Z)
    (rows : list User) : option (list User * Z) :=
  match rows with
  | [] => Some ([], 0%Z)
  | row :: rest =>
      match update_rows cols model id rest with
      | None => None
      | Some (rest', n) =>
          if is_live row && (ID row =? id)%Z then
            match set_columns cols model row with
            | None => None
            | Some row' => Some (row' :: rest', (n + 1)%Z)
            end
          else Some (row :: rest', n)
      end
  end.

(** The update statement; the result is the number of rows affected. The
    unique index on [email] and the primary key are checked on the table the
    update leaves. *)
Definition update_user (cols : list string) (model : User) (id : Z)
    (st : Store) : error + (Z * Store) :=
  match update_rows cols model id (users st) with
  | None => inl (ErrSQL "column does not exist")
  | Some (rows, n) =>
      if (n =? 0)%Z then inr (0%Z, st)
      else if negb (bool_decide (NoDup (List.map Email rows)))
           then inl (ErrUnique "users_email_key")
      else if negb (bool_decide (NoDup (List.map ID rows)))
           then inl (ErrUnique "users_pkey")
      else inr (n, set_users st rows)
  end.

(** [NewDelete()] on a model with a [soft_delete] field:
    [UPDATE users SET deleted_at = now WHERE id = ? AND deleted_at IS NULL]. *)
Definition soft_delete_user (now : Time) (id : Z) (st : Store) : error + (Z * Store) :=
  let hit := fun u => is_live u && (ID u =? id)%Z in
  inr (Z.of_nat (length (List.filter hit (users st))),
       set_users st (List.map (fun u => if hit u then set_DeletedAt u (Some now) else u)
                              (users st))).

(** [SELECT count(DISTINCT users.id)] over the joined relation. *)
Definition count_distinct_ids (q : SelectQuery) (st : Store) : error + (Z * Store) :=
  inr (Z.of_nat (length (remove_dups (List.map ID (joined_rows st q)))), st).

(** The comparison an ORDER BY expression stands for, on the columns of
    [users]; strings compare byte-wise. *)
Definition order_le (orderColumn : string) : option (User -> User -> bool) :=
  if String.eqb orderColumn "name asc" then Some (fun a b => String.leb (Name a) (Name b))
  else if String.eqb orderColumn "name desc" then Some (fun a b => String.leb (Name b) (Name a))
  else if String.eqb orderColumn "email asc" then Some (fun a b => String.leb (Email a) (Email b))
  else if String.eqb orderColumn "email desc" then Some (fun a b => String.leb (Email b) (Email a))
  else if String.eqb orderColumn "created_at asc" then Some (fun a b => (CreatedAt a <=? CreatedAt b)%Z)
  else if String.eqb orderColumn "created_at desc" then Some (fun a b => (CreatedAt b <=? CreatedAt a)%Z)
  else if String.eqb orderColumn "updated_at asc" then Some (fun a b => (UpdatedAt a <=? UpdatedAt b)%Z)
  else if String.eqb orderColumn "updated_at desc" then Some (fun a b => (UpdatedAt b <=? UpdatedAt a)%Z)
  else None.

Fixpoint insert_sorted (le : User -> User -> bool) (x : User) (l : list User) : list User :=
  match l with
  | [] => [x]
  | y :: l' => if le x y then x :: l else y :: insert_sorted le x l'
  end.

Definition sort_rows (le : User -> User -> bool) (l : list User) : list User :=
  foldr (insert_sorted le) [] l.

(** OFFSET and LIMIT; bun leaves out a clause whose number is not positive. *)
Definition offset_rows (offset : Z) (l : list User) : list User :=
  if (0 <? offset)%Z then drop (Z.to_nat offset) l else l.

Definition limit_rows (limit : Z) (l : list User) : list User :=
  if (0 <? limit)%Z then take (Z.to_nat limit) l else l.

(** [Distinct().Order(o).Limit(n).Offset(k).ScanAndCount(ctx)]: the page of
    distinct rows with roles loaded, and the count of the distinct rows
    without limit and offset. *)
Definition select_users (q : SelectQuery) (orderColumn : string) (limit offset : Z)
    (st : Store) : error + ((list User * Z) * Store) :=
  match order_le orderColumn with
  | None => inl (ErrSQL "column does not exist")
  | Some le =>
      let rows := remove_dups (joined_rows st q) in
      let page := limit_rows limit (offset_rows offset (sort_rows le rows)) in
      inr ((List.map (with_roles st) page, Z.of_nat (length rows)), st)
  end.

(** [SELECT ... FROM roles WHERE name = ?] scanned into one [Role]. *)
Definition select_role (name : string) (st : Store) : error + (Role * Store) :=
  match List.filter (fun r => String.eqb (RoleName r) name) (roles st) with
  | [] => inl ErrNoRows
  | r :: _ => inr (r, st)
  end.

Definition same_pair (uid rid : Z) (ur : UserRole) : bool :=
  (UserRoleUserID ur =? uid)%Z && (UserRoleRoleID ur =? rid)%Z.

(** [INSERT INTO user_roles (user_id, role_id, assigned_at) VALUES (?, ?, ?)
    ON CONFLICT (user_id, role_id) DO NOTHING]. *)
Definition insert_user_role (uid rid : Z) (at_ : Time) (st : Store) : error + (Z * Store) :=
  if existsb (same_pair uid rid) (user_roles st) then inr (0%Z, st)
  else inr (1%Z, set_user_roles st (user_roles st ++ [mkUserRole uid rid at_])).

(** [DELETE FROM user_roles WHERE user_id = ? AND role_id = ?]. *)
Definition delete_user_role (uid rid : Z) (st : Store) : error + (Z * Store) :=
  inr (Z.of_nat (length (List.filter (same_pair uid rid) (user_roles st))),
       set_user_roles st (List.filter (fun ur => negb (same_pair uid rid ur)) (user_roles st))).

Definition select_roles_of (uid : Z) (st : Store) : error + (list Role * Store) :=
  inr (roles_of st uid, st).

(** ** Handles, contexts and the world *)

(** A [*bun.DB] and a [bun.Tx] are values of different types; [TxZero] is
    the zero [bun.Tx] that [BeginTx] returns next to an error. *)
Inductive bun_DB := DBHandle (n : nat).
Inductive bun_Tx := TxZero | TxOpen (n : nat).

#[global] Instance bun_DB_eq_dec : EqDecision bun_DB.
Proof. solve_decision. Defined.

(** The value a context holds under [txKey{}], with its dynamic type. *)
Inductive ctx_value :=
  | IsDB (db : bun_DB)
  | IsTx (tx : bun_Tx).

Definition Context := option ctx_value.

(** [context.WithValue(ctx, txKey{}, v)]. *)
Definition WithValue (ctx : Context) (v : ctx_value) : Context := Some v.

(** What the repository sends to the store, as the journal records it. *)
Inductive Stmt :=
  | InsertUser (u : User)
  | SelectUserWhereEmail (email : string)
  | SelectUserWhereID (id : Z)
  | UpdateUser (cols : list string) (u : User) (id : Z)
  | SoftDeleteUser (id : Z)
  | CountDistinctUserIDs (q : SelectQuery)
  | SelectUsers (q : SelectQuery) (orderColumn : string) (limit offset : Z)
  | SelectRoleWhereName (name : string)
  | InsertUserRole (uid rid : Z) (at_ : Time)
  | DeleteUserRole (uid rid : Z)
  | SelectRolesOfUser (uid : Z)
  | Begin.

(** The world a call runs in: the committed store, the transactions begun
    and not finished, the journal of statements in the order they were
    issued, the store failures still to come (one flag per statement, none
    once the list is used up) and the clock. *)
Record World := mkWorld {
  store : Store;
  open_txs : nat;
  journal : list (bun_DB * Stmt);
  faults : list bool;
  clock : Time
}.

Definition M (A : Type) : Type := World -> A * World.

Definition ret {A} (a : A) : M A := fun w => (a, w).

Definition bind {A B} (m : M A) (k : A -> M B) : M B :=
  fun w => let '(a, w') := m w in k a w'.

Notation "x <- m ;; k" := (bind m (fun x => k))
  (at level 100, m at next level, right associativity).

(** One statement on a [*bun.DB]: it is journalled; it fails with a store
    failure when the next fault flag says so, and otherwise runs against the
    committed store (a [*bun.DB] commits each statement on its own). *)
Definition statement {A} (db : bun_DB) (s : Stmt)
    (sem : Time -> Store -> error + (A * Store)) : M (error + A) :=
  fun w =>
    let j := journal w ++ [(db, s)] in
    match faults w with
    | true :: fs => (inl ErrStore, mkWorld (store w) (open_txs w) j fs (clock w + 1)%Z)
    | fs =>
        match sem (clock w) (store w) with
        | inl e => (inl e, mkWorld (store w) (open_txs w) j (tail fs) (clock w + 1)%Z)
        | inr (a, st) => (inr a, mkWorld st (open_txs w) j (tail fs) (clock w + 1)%Z)
        end
    end.

(** [time.Now()]. *)
Definition time_Now : M Time :=
  fun w => (clock w, mkWorld (store w) (open_txs w) (journal w) (faults w) (clock w + 1)%Z).

(** [db.BeginTx(ctx, opts)]: a new transaction is open on success. *)
Definition BeginTx (db : bun_DB) : M (bun_Tx * option error) :=
  fun w =>
    let j := journal w ++ [(db, Begin)] in
    match faults w with
    | true :: fs => ((TxZero, Some ErrStore), mkWorld (store w) (open_txs w) j fs (clock w + 1)%Z)
    | fs => ((TxOpen (open_txs w), None),
             mkWorld (store w) (S (open_txs w)) j (tail fs) (clock w + 1)%Z)
    end.

(** ** The repository ([repository.go]) *)

Record repository := mkRepository { db : bun_DB }.

Definition NewRepository (d : bun_DB) : repository := mkRepository d.

(** The value under [txKey{}] is returned when the type assertion to
    [*bun.DB] holds, that is, when its dynamic type is [*bun.DB]; otherwise
    [r.db] is. *)
Definition getDB (r : repository) (ctx : Context) : bun_DB :=
  match ctx with
  | Some (IsDB tx) => tx
  | _ => db r
  end.

(** [Create] fills the model it is given; the model is returned next to the
    error. *)
Definition Create (r : repository) (ctx : Context) (user : User) : M (User * option error) :=
  res <- statement (getDB r ctx) (InsertUser user) (fun now => insert_user now user) ;;
  match res with
  | inl err => ret (user, Some err)
  | inr user' => ret (user', None)
  end.

Definition FindByEmail (r : repository) (ctx : Context) (email : string)
    : M (option User * option error) :=
  res <- statement (getDB r ctx) (SelectUserWhereEmail email)
           (fun _ => select_user (fun u => String.eqb (Email u) email)) ;;
  match res with
  | inl err => if errors_Is err ErrNoRows then ret (None, None) else ret (None, Some err)
  | inr user => ret (Some user, None)
  end.

Definition FindByID (r : repository) (ctx : Context) (id : Z)
    : M (option User * option error) :=
  res <- statement (getDB r ctx) (SelectUserWhereID id)
           (fun _ => select_user (fun u => (ID u =? id)%Z)) ;;
  match res with
  | inl err => if errors_Is err ErrNoRows then ret (None, None) else ret (None, Some err)
  | inr user => ret (Some user, None)
  end.

Definition Update_columns : list string :=
  ["name"; "email"; "password_hash"; "updated_at"]%string.

Definition Update (r : repository) (ctx : Context) (user : User) : M (option error) :=
  res <- statement (getDB r ctx) (UpdateUser Update_columns user (ID user))
           (fun _ => update_user Update_columns user (ID user)) ;;
  match res with
  | inl err => ret (Some err)
  | inr _ => ret None
  end.

Definition Delete (r : repository) (ctx : Context) (id : Z) : M (option error) :=
  res <- statement (getDB r ctx) (SoftDeleteUser id) (fun now => soft_delete_user now id) ;;
  match res with
  | inl err => ret (Some err)
  | inr _ => ret None
  end.

(** [UserFilterParams] is declared outside the files at hand; these are the
    fields [ListAllUsers] reads. *)
Record UserFilterParams := mkUserFilterParams {
  FilterRole : string;
  FilterSearch : string;
  FilterSort : string;
  FilterOrder : string
}.

Definition validSorts : gmap string bool :=
  list_to_map [("name", true); ("email", true); ("created_at", true); ("updated_at", true)]%string.

(** Go's [int] is 64 bits wide and wraps around. *)
Definition wrap_int (z : Z) : Z := ((z + 2 ^ 63) mod 2 ^ 64 - 2 ^ 63)%Z.

Definition ListAllUsers (r : repository) (ctx : Context) (filters : UserFilterParams)
    (page perPage : Z) : M (list User * Z * option error) :=
  let query := NewSelect in
  let query :=
    if negb (String.eqb (FilterRole filters) "") then JoinsRole query (FilterRole filters)
    else query in
  let query :=
    if negb (String.eqb (FilterSearch filters) "") then
      let escapedSearch := ReplaceAll (FilterSearch filters) "%" "\%" in
      let escapedSearch := ReplaceAll escapedSearch "_" "\_" in
      let searchPattern := ("%" +:+ escapedSearch +:+ "%")%string in
      WhereLike query searchPattern
    else query in
  res <- statement (getDB r ctx) (CountDistinctUserIDs query)
           (fun _ => count_distinct_ids query) ;;
  match res with
  | inl err => ret ([], 0%Z, Some err)
  | inr _ =>
      let offset := wrap_int ((page - 1) * perPage) in
      if negb (default false (validSorts !! FilterSort filters)) then
        ret ([], 0%Z, Some (ErrNew "invalid sort field"))
      else if negb (String.eqb (FilterOrder filters) "asc")
              && negb (String.eqb (FilterOrder filters) "desc") then
        ret ([], 0%Z, Some (ErrNew "invalid sort order"))
      else
        let orderColumn := (FilterSort filters +:+ " " +:+ FilterOrder filters)%string in
        res <- statement (getDB r ctx) (SelectUsers query orderColumn perPage offset)
                 (fun _ => select_users query orderColumn perPage offset) ;;
        match res with
        | inl err => ret ([], 0%Z, Some err)
        | inr (users, total) => ret (users, total, None)
        end
  end.

Definition FindRoleByName (r : repository) (ctx : Context) (name : string)
    : M (option Role * option error) :=
  res <- statement (getDB r ctx) (SelectRoleWhereName name) (fun _ => select_role name) ;;
  match res with
  | inl err => if errors_Is err ErrNoRows then ret (None, None) else ret (None, Some err)
  | inr role => ret (Some role, None)
  end.

(** The second half of [AssignRole], once the role is at hand. *)
Definition AssignRole_insert (r : repository) (ctx : Context) (userID : Z) (role : Role)
    : M (option error) :=
  now <- time_Now ;;
  res <- statement (getDB r ctx) (InsertUserRole userID (RoleID role) now)
           (fun _ => insert_user_role userID (RoleID role) now) ;;
  match res with
  | inl err => ret (Some err)
  | inr _ => ret None
  end.

Definition AssignRole (r : repository) (ctx : Context) (userID : Z) (roleName : string)
    : M (option error) :=
  found <- FindRoleByName r ctx roleName ;;
  let '(role, err) := found in
  match err with
  | Some e => ret (Some e)
  | None =>
      match role with
      | None => ret (Some (ErrNew "role not found"))
      | Some role => AssignRole_insert r ctx userID role
      end
  end.

Definition RemoveRole (r : repository) (ctx : Context) (userID : Z) (roleName : string)
    : M (option error) :=
  found <- FindRoleByName r ctx roleName ;;
  let '(role, err) := found in
  match err with
  | Some e => ret (Some e)
  | None =>
      match role with
      | None => ret (Some (ErrNew "role not found"))
      | Some role =>
          res <- statement (getDB r ctx) (DeleteUserRole userID (RoleID role))
                   (fun _ => delete_user_role userID (RoleID role)) ;;
          match res with
          | inl err => ret (Some err)
          | inr _ => ret None
          end
      end
  end.

Definition GetUserRoles (r : repository) (ctx : Context) (userID : Z)
    : M (list Role * option error) :=
  res <- statement (getDB r ctx) (SelectRolesOfUser userID) (fun _ => select_roles_of userID) ;;
  match res with
  | inl err => ret ([], Some err)
  | inr roles => ret (roles, None)
  end.

(** [CreateAndAssignRole]: the error of [BeginTx] is never looked at, the
    transaction goes into the context as a [bun.Tx], and the function returns
    without a commit or a rollback. *)
Definition CreateAndAssignRole (r : repository) (ctx : Context) (user : User)
    (roleName : string) : M (User * option error) :=
  begun <- BeginTx (getDB r ctx) ;;
  let '(tx, _) := begun in
  let txCtx := WithValue ctx (IsTx tx) in
  created <- Create r txCtx user ;;
  let '(user, err) := created in
  match err with
  | Some e => ret (user, Some e)
  | None =>
      err <- AssignRole r txCtx (ID user) roleName ;;
      ret (user, err)
  end.

(** ** Concurrent callers

    Two callers share the store and nothing else; the store runs each
    statement atomically. A call is a thread of steps, one statement each,
    and a schedule says which caller moves next. *)

#[local] Set Warnings "-register-all".

Inductive Thread (A : Type) : Type :=
  | Done (a : A)
  | Step (k : World -> Thread A * World).

Arguments Done {A} a.
Arguments Step {A} k.

Definition step {A} (t : Thread A) (w : World) : Thread A * World :=
  match t with
  | Done a => (Done a, w)
  | Step k => k w
  end.

(** [false] moves the first caller, [true] the second. *)
Fixpoint interleave {A} (schedule : list bool) (t1 t2 : Thread A) (w : World)
    : Thread A * Thread A * World :=
  match schedule with
  | [] => (t1, t2, w)
  | false :: rest => let '(t1', w') := step t1 w in interleave rest t1' t2 w'
  | true :: rest => let '(t2', w') := step t2 w in interleave rest t1 t2' w'
  end.

(** [AssignRole] cut at its statements: the role lookup, then the insert. *)
Definition AssignRole_insert_thread (r : repository) (ctx : Context) (userID : Z)
    (role : Role) : Thread (option error) :=
  Step (fun w => let '(err, w') := AssignRole_insert r ctx userID role w in (Done err, w')).

Definition AssignRole_thread (r : repository) (ctx : Context) (userID : Z)
    (roleName : string) : Thread (option error) :=
  Step (fun w =>
    let '(found, w') := FindRoleByName r ctx roleName w in
    let '(role, err) := found in
    match err with
    | Some e => (Done (Some e), w')
    | None =>
        match role with
        | None => (Done (Some (ErrNew "role not found")), w')
        | Some role => (AssignRole_insert_thread r ctx userID role, w')
        end
    end).

(** ** Notions the properties are stated with *)

(** The constraints the store enforces: primary keys, the unique indexes on
    [users.email] and [roles.name], and the unique pair of [user_roles]. *)
Record store_ok (st : Store) : Prop := mkStoreOk {
  users_pkey : NoDup (List.map ID (users st));
  users_email_key : NoDup (List.map Email (users st));
  roles_pkey : NoDup (List.map RoleID (roles st));
  roles_name_key : NoDup (List.map RoleName (roles st));
  user_roles_pkey :
    NoDup (List.map (fun ur => (UserRoleUserID ur, UserRoleRoleID ur)) (user_roles st))
}.


(** [t] occurs in [s] as a substring. *)
Definition substring_of (t s : string) : Prop :=
  exists a b : string, s = (a +:+ t +:+ b)%string.

(** [c] occurs in [s]. *)
Fixpoint occurs (c : ascii) (s : string) : bool :=
  match s with
  | EmptyString => false
  | String x s' => Ascii.eqb x c || occurs c s'
  end.

(** The sort fields [ListAllUsers] lets through. *)
Definition sort_fields : list string := ["name"; "email"; "created_at"; "updated_at"]%string.

(** What the four columns of [Update] make of a row. *)
Definition updated_row (model row : User) : User :=
  mkUser (ID row) (Name model) (Email model) (PasswordHash model) (Roles row)
         (CreatedAt row) (UpdatedAt model) (DeletedAt row).

(** The pattern [ListAllUsers] searches with, and the query it builds. *)
Definition search_pattern (search : string) : string :=
  ("%" +:+ ReplaceAll (ReplaceAll search "%" "\%") "_" "\_" +:+ "%")%string.

Definition list_query (filters : UserFilterParams) : SelectQuery :=
  mkSelectQuery
    (if String.eqb (FilterRole filters) "" then None else Some (FilterRole filters))
    (if String.eqb (FilterSearch filters) "" then None
     else Some (search_pattern (FilterSearch filters))).

Definition nonempty {A} (l : list A) : bool :=
  match l with [] => false | _ :: _ => true end.




(** The store answers, keeps its constraints, and has the role. *)
Definition ready (role : Role) (w : World) : Prop :=
  faults w = [] /\ store_ok (store w) /\ role ∈ roles (store w).

(** The next statement meets a store failure. *)
Definition faulty (w : World) : bool := hd false (faults w).

(** The world with other store failures ahead of it. *)
Definition with_faults (fs : list bool) (w : World) : World :=
  mkWorld (store w) (open_txs w) (journal w) fs (clock w).

(** The number of association rows for one pair. *)
Definition pair_rows (st : Store) (uid rid : Z) : nat :=
  length (List.filter (same_pair uid rid) (user_roles st)).


(** ** Stores and inputs the properties are tried on *)

Local Open Scope Z_scope.

Definition seed_roles : list Role :=
  [mkRole 1 "user" "Standard user with basic permissions" 1 1;
   mkRole 2 "moderator" "Moderator with extended permissions" 1 1;
   mkRole 3 "admin" "Administrator with full system access" 1 1;
   mkRole 4 "editor" "Editor" 1 1].

Definition seeded : Store := mkStore [] 0 seed_roles [].

Definition world0 : World := mkWorld seeded 0 [] [] 100.

Definition repo : repository := NewRepository (DBHandle 0).

Definition alice : User := mkUser 0 "alice" "alice@example.com" "hash" [] 0 0 None.

(** One user who is both admin and editor, one who is neither. *)
Definition two_roles : Store :=
  mkStore [mkUser 1 "alice" "alice@example.com" "hash" [] 5 5 None;
           mkUser 2 "bob" "bob@example.com" "hash" [] 6 6 None]
          2 seed_roles
          [mkUserRole 1 3 7; mkUserRole 1 4 8].

Definition world_two_roles : World := mkWorld two_roles 0 [] [] 100.

(** Users whose names try the search. *)
Definition shop : Store :=
  mkStore [mkUser 1 "50%Off" "off@example.com" "hash" [] 5 5 None;
           mkUser 2 "50X" "x@example.com" "hash" [] 6 6 None;
           mkUser 3 "a\b" "ab@example.com" "hash" [] 7 7 None]
          3 seed_roles [].

Definition world_shop : World := mkWorld shop 0 [] [] 100.

(** A store the unique pair of [user_roles] does not hold in: the same
    association twice. *)
Definition twice_admin : Store :=
  mkStore [mkUser 1 "alice" "alice@example.com" "hash" [] 5 5 None]
          1 seed_roles
          [mkUserRole 1 3 7; mkUserRole 1 3 8].

Definition world_twice_admin : World := mkWorld twice_admin 0 [] [] 100.

Local Close Scope Z_scope.

(** * Properties *)

(** ** The entity model *)

Lemma HasRole_loop_spec (rs : list Role) (x : string) :
  HasRole_loop rs x = true <-> exists role, role ∈ rs /\ RoleName role = x.
Proof.
  induction rs as [|role rest IH]; simpl.
  - split; [discriminate | intros (role & Hin & _); inversion Hin].
  - destruct (String.eqb_spec (RoleName role) x) as [Heq|Hne].
    + split; [intros _ | reflexivity].
      exists role. split; [left | exact Heq].
    + rewrite IH. split.
      * intros (r & Hin & Hr). exists r. split; [right; exact Hin | exact Hr].
      * intros (r & Hin & Hr). apply elem_of_cons in Hin as [->|Hin].
        -- contradiction.
        -- exists r. split; assumption.
Qed.

Lemma GetRoleNames_loop_spec (rs : list Role) :
  forall (filled rest : list string),
    length rest = length rs ->
    GetRoleNames_loop (length filled) rs (filled ++ rest)
    = filled ++ List.map RoleName rs.
Proof.
  induction rs as [|role rs IH]; intros filled rest Hlen; simpl.
  - destruct rest; [reflexivity | discriminate].
  - destruct rest as [|slot rest]; [discriminate|].
    rewrite insert_app_r_alt by lia.
    replace (length filled - length filled) with 0 by lia. simpl.
    specialize (IH (filled ++ [RoleName role]) rest).
    rewrite length_app in IH. simpl in IH.
    replace (length filled + 1) with (S (length filled)) in IH by lia.
    rewrite <- !app_assoc in IH. simpl in IH.
    apply IH. simpl in Hlen. lia.
Qed.

Lemma GetRoleNames_map (u : User) : GetRoleNames u = List.map RoleName (Roles u).
Proof.
  unfold GetRoleNames.
  apply (GetRoleNames_loop_spec (Roles u) [] (replicate (length (Roles u)) ""%string)).
  apply length_replicate.
Qed.

(** C9. The role checks of a user are pure functions of the roles loaded in
    it (none takes or returns a world, so none can reach the store):
    [HasRole u x] holds exactly when a loaded role is called [x],
    [GetRoleNames u] is the names of the loaded roles in their order and so
    has their number, and [IsAdmin u] is [HasRole u "admin"]. *)
Theorem role_checks_are_projections (u : User) (x : string) :
  (HasRole u x = true <-> exists role, role ∈ Roles u /\ RoleName role = x) /\
  GetRoleNames u = List.map RoleName (Roles u) /\
  length (GetRoleNames u) = length (Roles u) /\
  IsAdmin u = HasRole u "admin".
Proof.
  split; [apply HasRole_loop_spec|].
  split; [apply GetRoleNames_map|].
  split; [|reflexivity].
  rewrite GetRoleNames_map. apply length_map.
Qed.

(** ** Statements and the journal *)

Lemma statement_fault {A} (d : bun_DB) (s : Stmt)
    (sem : Time -> Store -> error + (A * Store)) (w : World) :
  faulty w = true ->
  statement d s sem w
  = (inl ErrStore,
     mkWorld (store w) (open_txs w) (journal w ++ [(d, s)]) (tail (faults w)) (clock w + 1)%Z).
Proof.
  unfold faulty, statement. destruct (faults w) as [|[] fs]; simpl; try discriminate.
  reflexivity.
Qed.

Lemma statement_run {A} (d : bun_DB) (s : Stmt)
    (sem : Time -> Store -> error + (A * Store)) (w : World) :
  faulty w = false ->
  statement d s sem w
  = match sem (clock w) (store w) with
    | inl e => (inl e, mkWorld (store w) (open_txs w) (journal w ++ [(d, s)])
                               (tail (faults w)) (clock w + 1)%Z)
    | inr (a, st) => (inr a, mkWorld st (open_txs w) (journal w ++ [(d, s)])
                                     (tail (faults w)) (clock w + 1)%Z)
    end.
Proof.
  unfold faulty, statement. destruct (faults w) as [|[] fs]; simpl; try discriminate;
    reflexivity.
Qed.

Lemma statement_journal {A} (d : bun_DB) (s : Stmt)
    (sem : Time -> Store -> error + (A * Store)) (w : World) :
  journal (snd (statement d s sem w)) = journal w ++ [(d, s)].
Proof.
  unfold statement. destruct (faults w) as [|[] fs]; simpl; try reflexivity;
    destruct (sem (clock w) (store w)) as [e|[a st]]; reflexivity.
Qed.

Lemma set_users_same (st : Store) : set_users st (users st) = st.
Proof. destruct st; reflexivity. Qed.

Lemma set_user_roles_same (st : Store) : set_user_roles st (user_roles st) = st.
Proof. destruct st; reflexivity. Qed.

Lemma filter_nil_iff {A} (p : A -> bool) (l : list A) :
  List.filter p l = [] <-> forall x, x ∈ l -> p x = false.
Proof.
  induction l as [|a l IH]; simpl.
  - split; [intros _ x Hx; inversion Hx | reflexivity].
  - destruct (p a) eqn:Hpa; split.
    + discriminate.
    + intros H. specialize (H a (list_elem_of_here _ _)). congruence.
    + intros H x Hx. apply elem_of_cons in Hx as [->|Hx]; [exact Hpa|].
      apply IH; assumption.
    + intros H. apply IH. intros x Hx. apply H. right. exact Hx.
Qed.

Lemma map_if_false {A} (p : A -> bool) (f : A -> A) (l : list A) :
  (forall x, x ∈ l -> p x = false) ->
  List.map (fun x => if p x then f x else x) l = l.
Proof.
  induction l as [|a l IH]; intros H; simpl; [reflexivity|].
  rewrite (H a) by left. f_equal. apply IH. intros x Hx. apply H. right. exact Hx.
Qed.

(** ** Delete *)

(** C10. [Delete] never answers "not found": whatever the id names, it
    issues one soft-delete statement and nothing else, its error is the
    store failure of that statement if there is one and none otherwise (the
    number of rows affected plays no part), and when no live row has the id
    the store is left as it was. *)
Theorem Delete_never_not_found (r : repository) (ctx : Context) (id : Z) (w : World) :
  journal (snd (Delete r ctx id w)) = journal w ++ [(getDB r ctx, SoftDeleteUser id)] /\
  fst (Delete r ctx id w) = (if faulty w then Some ErrStore else None) /\
  ((forall u, u ∈ users (store w) -> is_live u = true -> ID u <> id) ->
   store (snd (Delete r ctx id w)) = store w).
Proof.
  unfold Delete, bind, ret.
  destruct (faulty w) eqn:Hf.
  - rewrite statement_fault by exact Hf. simpl. auto.
  - rewrite statement_run by exact Hf. simpl. repeat split.
    intros Hnone. rewrite map_if_false; [apply set_users_same|].
    intros u Hu. destruct (is_live u) eqn:Hl; simpl; [|reflexivity].
    apply Z.eqb_neq. apply Hnone; assumption.
Qed.

Lemma Delete_never_not_found_witness :
  store (snd (Delete repo None 42%Z world0)) = store world0.
Proof.
  apply (Delete_never_not_found repo None 42%Z world0).
  intros u Hu. inversion Hu.
Defined.

(** ** AssignRole with an unknown role *)

Lemma select_role_none (name : string) (st : Store) :
  (forall role, role ∈ roles st -> RoleName role <> name) ->
  select_role name st = inl ErrNoRows.
Proof.
  intros H. unfold select_role.
  replace (List.filter (fun r => String.eqb (RoleName r) name) (roles st)) with (@nil Role);
    [reflexivity|].
  symmetry. apply filter_nil_iff. intros role Hin.
  apply String.eqb_neq. apply H. exact Hin.
Qed.

(** C8. When no role row carries the name, [AssignRole] fails with
    "role not found" (or with the store failure of the lookup, if the lookup
    itself fails), the lookup is the only statement it issues, so the insert
    is never sent, and the store is left as it was. *)
Theorem AssignRole_unknown_role (r : repository) (ctx : Context) (userID : Z)
    (roleName : string) (w : World) :
  (forall role, role ∈ roles (store w) -> RoleName role <> roleName) ->
  fst (AssignRole r ctx userID roleName w)
  = Some (if faulty w then ErrStore else ErrNew "role not found") /\
  store (snd (AssignRole r ctx userID roleName w)) = store w /\
  user_roles (store (snd (AssignRole r ctx userID roleName w))) = user_roles (store w) /\
  journal (snd (AssignRole r ctx userID roleName w))
  = journal w ++ [(getDB r ctx, SelectRoleWhereName roleName)].
Proof.
  intros Hnone. unfold AssignRole, FindRoleByName, bind, ret.
  destruct (faulty w) eqn:Hf.
  - rewrite statement_fault by exact Hf. simpl. auto.
  - rewrite statement_run by exact Hf.
    rewrite select_role_none by exact Hnone. simpl. auto.
Qed.

Lemma AssignRole_unknown_role_witness :
  fst (AssignRole repo None 1%Z "nosuchrole" world0) = Some (ErrNew "role not found") /\
  user_roles (store (snd (AssignRole repo None 1%Z "nosuchrole" world0))) = [].
Proof.
  assert (H : forall role, role ∈ roles (store world0) -> RoleName role <> "nosuchrole"%string).
  { intros role Hin. simpl in Hin.
    repeat (apply elem_of_cons in Hin as [->|Hin]; [discriminate|]).
    inversion Hin. }
  destruct (AssignRole_unknown_role repo None 1%Z "nosuchrole" world0 H) as (He & _ & Hs & _).
  split; [exact He | exact Hs].
Defined.

(** ** ListAllUsers: the checks on sort field and sort order *)

Lemma validSorts_lookup (s : string) :
  default false (validSorts !! s) = bool_decide (s ∈ sort_fields).
Proof.
  unfold validSorts, sort_fields. simpl.
  destruct (decide (s = "name"%string)) as [->|H1].
  { rewrite lookup_insert_eq. reflexivity. }
  rewrite lookup_insert_ne by congruence.
  destruct (decide (s = "email"%string)) as [->|H2].
  { rewrite lookup_insert_eq. reflexivity. }
  rewrite lookup_insert_ne by congruence.
  destruct (decide (s = "created_at"%string)) as [->|H3].
  { rewrite lookup_insert_eq. reflexivity. }
  rewrite lookup_insert_ne by congruence.
  destruct (decide (s = "updated_at"%string)) as [->|H4].
  { rewrite lookup_insert_eq. reflexivity. }
  rewrite lookup_insert_ne by congruence.
  rewrite lookup_empty. simpl. symmetry. apply bool_decide_eq_false.
  intros Hin. repeat (apply elem_of_cons in Hin as [Hin|Hin]; [congruence|]).
  inversion Hin.
Qed.




(** ** CreateAndAssignRole *)

(** The statements of [CreateAndAssignRole] run on [r.db] and not on the
    transaction: a [bun.Tx] under [txKey{}] does not pass the type assertion
    of [getDB]. *)
Lemma getDB_ignores_Tx (r : repository) (ctx : Context) (tx : bun_Tx) :
  getDB r (WithValue ctx (IsTx tx)) = db r.
Proof. reflexivity. Qed.

(** C1 on the code. Creating [alice] with a role name no role carries
    returns "role not found" unchanged, and the row of [alice] stays in the
    store, committed, with no association row; the transaction that was
    begun is still open, and none of the three statements ran on it. *)
Theorem CreateAndAssignRole_leaves_user_behind :
  users (store world0) = [] /\
  snd (fst (CreateAndAssignRole repo None alice "nosuchrole" world0))
  = Some (ErrNew "role not found") /\
  users (store (snd (CreateAndAssignRole repo None alice "nosuchrole" world0)))
  = [mkUser 1 "alice" "alice@example.com" "hash" [] 101 101 None] /\
  user_roles (store (snd (CreateAndAssignRole repo None alice "nosuchrole" world0))) = [] /\
  open_txs (snd (CreateAndAssignRole repo None alice "nosuchrole" world0)) = 1 /\
  journal (snd (CreateAndAssignRole repo None alice "nosuchrole" world0))
  = [(DBHandle 0, Begin); (DBHandle 0, InsertUser alice);
     (DBHandle 0, SelectRoleWhereName "nosuchrole")].
Proof. vm_compute. repeat split. Qed.

(** ** Update *)

Lemma set_columns_Update (model row : User) :
  set_columns Update_columns model row = Some (updated_row model row).
Proof. reflexivity. Qed.




Lemma roles_of_tables (st st' : Store) (uid : Z) :
  roles st' = roles st -> user_roles st' = user_roles st ->
  roles_of st' uid = roles_of st uid.
Proof.
  intros Hr Hur. unfold roles_of, user_roles_of. rewrite Hr, Hur. reflexivity.
Qed.

Lemma GetUserRoles_result (r : repository) (ctx : Context) (uid : Z) (w : World) :
  fst (GetUserRoles r ctx uid w)
  = if faulty w then ([], Some ErrStore) else (roles_of (store w) uid, None).
Proof.
  unfold GetUserRoles, bind, ret. destruct (faulty w) eqn:Hf.
  - rewrite statement_fault by exact Hf. reflexivity.
  - rewrite statement_run by exact Hf. reflexivity.
Qed.


(** C3 on the users of [two_roles]: a new e-mail address for the user who
    is admin and editor leaves both roles with them. *)
Example Update_keeps_roles_of_admin_editor :
  let user := mkUser 1 "alice" "alice@new.example.com" "hash" [] 0 200 None in
  fst (Update repo None user world_two_roles) = None /\
  List.map Email (users (store (snd (Update repo None user world_two_roles))))
  = ["alice@new.example.com"; "bob@example.com"]%string /\
  List.map RoleName (fst (fst (GetUserRoles repo None 1 world_two_roles)))
  = ["admin"; "editor"]%string /\
  List.map RoleName
    (fst (fst (GetUserRoles repo None 1 (snd (Update repo None user world_two_roles)))))
  = ["admin"; "editor"]%string.
Proof. vm_compute. repeat split. Qed.

(** ** What ListAllUsers returns *)

Lemma ListAllUsers_query (r : repository) (ctx : Context) (filters : UserFilterParams)
    (page perPage : Z) (w : World) :
  ListAllUsers r ctx filters page perPage w
  = (res <- statement (getDB r ctx) (CountDistinctUserIDs (list_query filters))
             (fun _ => count_distinct_ids (list_query filters)) ;;
     match res with
     | inl err => ret ([], 0%Z, Some err)
     | inr _ =>
         if negb (default false (validSorts !! FilterSort filters)) then
           ret ([], 0%Z, Some (ErrNew "invalid sort field"))
         else if negb (String.eqb (FilterOrder filters) "asc")
                 && negb (String.eqb (FilterOrder filters) "desc") then
           ret ([], 0%Z, Some (ErrNew "invalid sort order"))
         else
           res <- statement (getDB r ctx)
                    (SelectUsers (list_query filters)
                       (FilterSort filters +:+ " " +:+ FilterOrder filters)%string
                       perPage (wrap_int ((page - 1) * perPage)))
                    (fun _ => select_users (list_query filters)
                                (FilterSort filters +:+ " " +:+ FilterOrder filters)%string
                                perPage (wrap_int ((page - 1) * perPage))) ;;
           match res with
           | inl err => ret ([], 0%Z, Some err)
           | inr (users, total) => ret (users, total, None)
           end
     end) w.
Proof.
  unfold ListAllUsers, list_query, search_pattern, NewSelect, JoinsRole, WhereLike.
  destruct (String.eqb (FilterRole filters) ""), (String.eqb (FilterSearch filters) "");
    reflexivity.
Qed.

(** A listing either fails with nothing to show, or shows a page cut from
    the sorted distinct rows of its query, with their number as total. *)
Lemma ListAllUsers_result (r : repository) (ctx : Context) (filters : UserFilterParams)
    (page perPage : Z) (w : World) :
  (exists e, fst (ListAllUsers r ctx filters page perPage w) = ([], 0%Z, Some e)) \/
  (faulty w = false /\
   exists le,
     fst (ListAllUsers r ctx filters page perPage w)
     = (List.map (with_roles (store w))
          (limit_rows perPage
             (offset_rows (wrap_int ((page - 1) * perPage))
                (sort_rows le (remove_dups (joined_rows (store w) (list_query filters)))))),
        Z.of_nat (length (remove_dups (joined_rows (store w) (list_query filters)))),
        None)).
Proof.
  rewrite ListAllUsers_query. unfold bind, ret.
  destruct (faulty w) eqn:Hf.
  { rewrite statement_fault by exact Hf. left. eexists. reflexivity. }
  rewrite statement_run by exact Hf. cbn [count_distinct_ids].
  destruct (negb (default false (validSorts !! FilterSort filters))).
  { left. eexists. reflexivity. }
  destruct (negb (String.eqb (FilterOrder filters) "asc")
            && negb (String.eqb (FilterOrder filters) "desc")).
  { left. eexists. reflexivity. }
  match goal with |- context [statement ?d ?s ?sem ?w1] =>
    destruct (faulty w1) eqn:Hf1;
    [rewrite (statement_fault d s sem w1 Hf1) | rewrite (statement_run d s sem w1 Hf1)]
  end.
  { left. eexists. reflexivity. }
  cbn [store clock]. unfold select_users.
  destruct (order_le _) as [le|].
  - right. split; [reflexivity|]. exists le. reflexivity.
  - left. eexists. reflexivity.
Qed.

Lemma insert_sorted_elem (le : User -> User -> bool) (x a : User) (l : list User) :
  x ∈ insert_sorted le a l <-> x = a \/ x ∈ l.
Proof.
  induction l as [|y l IH]; simpl.
  - rewrite list_elem_of_singleton. split; [auto | intros [H|H]; [exact H | inversion H]].
  - destruct (le a y).
    + rewrite elem_of_cons. reflexivity.
    + rewrite !elem_of_cons, IH. tauto.
Qed.

Lemma sort_rows_elem (le : User -> User -> bool) (x : User) (l : list User) :
  x ∈ sort_rows le l <-> x ∈ l.
Proof.
  unfold sort_rows. induction l as [|a l IH]; simpl; [reflexivity|].
  rewrite insert_sorted_elem, IH, elem_of_cons. reflexivity.
Qed.

Lemma offset_rows_elem (k : Z) (x : User) (l : list User) :
  x ∈ offset_rows k l -> x ∈ l.
Proof.
  unfold offset_rows. destruct (0 <? k)%Z; [|auto].
  intros H. rewrite <- (take_drop (Z.to_nat k) l). apply elem_of_app. right. exact H.
Qed.

Lemma limit_rows_elem (k : Z) (x : User) (l : list User) :
  x ∈ limit_rows k l -> x ∈ l.
Proof.
  unfold limit_rows. destruct (0 <? k)%Z; [|auto].
  intros H. rewrite <- (take_drop (Z.to_nat k) l). apply elem_of_app. left. exact H.
Qed.

Lemma user_join_elem (st : Store) (q : SelectQuery) (u x : User) :
  x ∈ user_join st q u -> x = u.
Proof.
  unfold user_join. destruct (join_role q) as [name|].
  - rewrite list_elem_of_In, in_flat_map. intros (ur & _ & Hx).
    apply in_map_iff in Hx as (r & Hx & _). symmetry. exact Hx.
  - rewrite list_elem_of_singleton. auto.
Qed.

Lemma joined_rows_elem (st : Store) (q : SelectQuery) (x : User) :
  x ∈ joined_rows st q ->
  x ∈ users st /\ is_live x = true /\ matches_like q x = true.
Proof.
  unfold joined_rows. rewrite list_elem_of_In, in_flat_map.
  intros (u & Hu & Hx). apply filter_In in Hu as [Hu Hp].
  apply list_elem_of_In, user_join_elem in Hx. subst x.
  apply andb_true_iff in Hp as [Hl Hm].
  split; [apply list_elem_of_In; exact Hu | split; assumption].
Qed.


(** ** Delete is a soft delete *)



Lemma soft_delete_marks (now : Time) (id : Z) (rows : list User) (x : User) :
  x ∈ List.map (fun u => if is_live u && (ID u =? id)%Z
                         then set_DeletedAt u (Some now) else u) rows ->
  is_live x = true -> ID x <> id.
Proof.
  rewrite list_elem_of_In, in_map_iff. intros (u & Hx & _) Hl.
  destruct (is_live u) eqn:Hlu; simpl in Hx.
  - destruct (Z.eqb_spec (ID u) id) as [Hid|Hid]; subst x.
    + discriminate.
    + exact Hid.
  - subst x. congruence.
Qed.

Lemma Delete_run (r : repository) (ctx : Context) (id : Z) (w : World) :
  faulty w = false ->
  Delete r ctx id w
  = (None,
     mkWorld (set_users (store w)
                (List.map (fun u => if is_live u && (ID u =? id)%Z
                                    then set_DeletedAt u (Some (clock w)) else u)
                          (users (store w))))
             (open_txs w) (journal w ++ [(getDB r ctx, SoftDeleteUser id)])
             (tail (faults w)) (clock w + 1)%Z).
Proof.
  intros Hf. unfold Delete, bind, ret. rewrite statement_run by exact Hf. reflexivity.
Qed.



(** ** The total of a listing *)

Section Distinct.
Context {A B : Type} `{EqDecision B}.
Variable key : A -> B.
Variable rows_of : A -> list B.
Hypothesis rows_of_key : forall a x, x ∈ rows_of a -> x = key a.



End Distinct.

Lemma NoDup_map_filter {A B} (f : A -> B) (p : A -> bool) (l : list A) :
  NoDup (List.map f l) -> NoDup (List.map f (List.filter p l)).
Proof.
  induction l as [|a l IH]; simpl; intros Hnd; [constructor|].
  apply NoDup_cons in Hnd as [Hfresh Hnd].
  destruct (p a); [|apply IH; exact Hnd].
  simpl. apply NoDup_cons. split; [|apply IH; exact Hnd].
  intros Hin. apply Hfresh.
  apply list_elem_of_In, in_map_iff in Hin as (x & Hx & Hin).
  apply filter_In in Hin as [Hin _].
  apply list_elem_of_In, in_map_iff. exists x. auto.
Qed.


Lemma nonempty_filter {A} (p : A -> bool) (l : list A) :
  nonempty (List.filter p l) = existsb p l.
Proof.
  induction l as [|a l IH]; simpl; [reflexivity|].
  destruct (p a); [reflexivity | exact IH].
Qed.








(** C4 where the join gives one user two rows: the total is still one. *)
Example ListAllUsers_total_of_doubled_join :
  length (joined_rows twice_admin (list_query (mkUserFilterParams "admin" "" "name" "asc"))) = 2 /\
  snd (fst (fst (ListAllUsers repo None (mkUserFilterParams "admin" "" "name" "asc") 1 10
                   world_twice_admin))) = 1%Z.
Proof. vm_compute. split; reflexivity. Qed.

(** ** AssignRole is idempotent *)

Lemma filter_unique_key {A B} `{EqDecision B} (f : A -> B) (p : A -> bool) (l : list A) (x : A) :
  NoDup (List.map f l) -> x ∈ l ->
  (forall y, p y = true <-> f y = f x) ->
  List.filter p l = [x].
Proof.
  intros Hnd Hin Hp. induction l as [|a l IH]; [inversion Hin|].
  simpl in Hnd. apply NoDup_cons in Hnd as [Hfresh Hnd]. simpl.
  apply elem_of_cons in Hin as [<-|Hin].
  - rewrite (proj2 (Hp x) eq_refl). f_equal.
    apply filter_nil_iff. intros y Hy.
    destruct (p y) eqn:Hpy; [|reflexivity].
    exfalso. apply Hfresh. apply Hp in Hpy. rewrite <- Hpy.
    apply list_elem_of_In, in_map. apply list_elem_of_In. exact Hy.
  - destruct (p a) eqn:Hpa.
    + exfalso. apply Hfresh. apply Hp in Hpa. rewrite Hpa.
      apply list_elem_of_In, in_map. apply list_elem_of_In. exact Hin.
    + apply IH; assumption.
Qed.

Lemma select_role_found (st : Store) (role : Role) :
  store_ok st -> role ∈ roles st ->
  select_role (RoleName role) st = inr (role, st).
Proof.
  intros Hok Hin. unfold select_role.
  rewrite (filter_unique_key RoleName _ (roles st) role).
  - reflexivity.
  - apply roles_name_key. exact Hok.
  - exact Hin.
  - intros y. apply String.eqb_eq.
Qed.

Lemma pair_rows_le_1 (st : Store) (uid rid : Z) :
  store_ok st -> pair_rows st uid rid <= 1.
Proof.
  intros Hok. apply user_roles_pkey in Hok. unfold pair_rows.
  induction (user_roles st) as [|ur urs IH]; simpl; [lia|].
  simpl in Hok. apply NoDup_cons in Hok as [Hfresh Hnd].
  destruct (same_pair uid rid ur) eqn:Hp; [|apply IH; exact Hnd].
  simpl. replace (List.filter (same_pair uid rid) urs) with (@nil UserRole); [simpl; lia|].
  symmetry. apply filter_nil_iff. intros y Hy.
  destruct (same_pair uid rid y) eqn:Hpy; [|reflexivity].
  exfalso. apply Hfresh.
  unfold same_pair in Hp, Hpy.
  apply andb_true_iff in Hp as [Hu Hr]. apply andb_true_iff in Hpy as [Hu' Hr'].
  apply Z.eqb_eq in Hu, Hr, Hu', Hr'.
  apply list_elem_of_In, in_map_iff. exists y.
  split; [congruence | apply list_elem_of_In; exact Hy].
Qed.

Lemma existsb_filter_nonempty {A} (p : A -> bool) (l : list A) :
  existsb p l = true -> 1 <= length (List.filter p l).
Proof.
  rewrite <- nonempty_filter. destruct (List.filter p l); [discriminate | simpl; lia].
Qed.

(** The insert of [AssignRole] keeps the constraints of the store and
    leaves exactly one row for its pair. *)
Lemma insert_user_role_once (uid rid : Z) (t : Time) (st : Store) :
  store_ok st ->
  exists n st',
    insert_user_role uid rid t st = inr (n, st') /\
    store_ok st' /\ roles st' = roles st /\ users st' = users st /\
    pair_rows st' uid rid = 1.
Proof.
  intros Hok. unfold insert_user_role.
  destruct (existsb (same_pair uid rid) (user_roles st)) eqn:Hex.
  - exists 0%Z, st.
    split; [reflexivity|]. split; [exact Hok|]. split; [reflexivity|]. split; [reflexivity|].
    pose proof (pair_rows_le_1 st uid rid Hok) as Hle.
    pose proof (existsb_filter_nonempty _ _ Hex) as Hge.
    unfold pair_rows in *. lia.
  - exists 1%Z, (set_user_roles st (user_roles st ++ [mkUserRole uid rid t])).
    assert (Hnone : List.filter (same_pair uid rid) (user_roles st) = []).
    { apply filter_nil_iff. intros y Hy.
      destruct (same_pair uid rid y) eqn:Hpy; [|reflexivity].
      assert (Htrue : existsb (same_pair uid rid) (user_roles st) = true).
      { apply existsb_exists. exists y. split; [apply list_elem_of_In; exact Hy | exact Hpy]. }
      congruence. }
    split; [reflexivity|]. split; [|split; [reflexivity|split; [reflexivity|]]].
    + destruct Hok as [H1 H2 H3 H4 H5]. constructor; simpl; try assumption.
      rewrite List.map_app. simpl. apply NoDup_app. split; [exact H5|].
      split; [|apply NoDup_singleton].
      intros pr Hpr Hnew. apply list_elem_of_singleton in Hnew. subst pr.
      apply list_elem_of_In, in_map_iff in Hpr as (y & Hy & Hin).
      assert (Hpy : same_pair uid rid y = true).
      { unfold same_pair. injection Hy as -> ->. rewrite !Z.eqb_refl. reflexivity. }
      assert (Hyin : In y (List.filter (same_pair uid rid) (user_roles st)))
        by (apply filter_In; split; assumption).
      rewrite Hnone in Hyin. inversion Hyin.
    + unfold pair_rows. simpl. rewrite List.filter_app, Hnone. simpl.
      unfold same_pair. simpl. rewrite !Z.eqb_refl. reflexivity.
Qed.

Lemma FindRoleByName_ready (r : repository) (ctx : Context) (role : Role) (w : World) :
  ready role w ->
  exists w',
    FindRoleByName r ctx (RoleName role) w = ((Some role, None), w') /\
    store w' = store w /\ ready role w'.
Proof.
  intros (Hf & Hok & Hin). unfold FindRoleByName, bind, ret.
  rewrite statement_run by (unfold faulty; rewrite Hf; reflexivity).
  rewrite select_role_found by assumption.
  eexists. split; [reflexivity|]. split; [reflexivity|].
  unfold ready. simpl. rewrite Hf. auto.
Qed.

Lemma AssignRole_insert_ready (r : repository) (ctx : Context) (uid : Z) (role : Role)
    (w : World) :
  ready role w ->
  exists w',
    AssignRole_insert r ctx uid role w = (None, w') /\
    ready role w' /\ pair_rows (store w') uid (RoleID role) = 1.
Proof.
  intros (Hf & Hok & Hin). unfold AssignRole_insert, time_Now, bind, ret.
  rewrite statement_run by (unfold faulty; simpl; rewrite Hf; reflexivity).
  cbn [store clock].
  destruct (insert_user_role_once uid (RoleID role) (clock w) (store w) Hok)
    as (n & st' & -> & Hok' & Hroles & _ & Hone).
  eexists. split; [reflexivity|]. unfold ready. simpl. rewrite Hf, Hroles. auto.
Qed.

Lemma AssignRole_ready (r : repository) (ctx : Context) (uid : Z) (role : Role) (w : World) :
  ready role w ->
  exists w',
    AssignRole r ctx uid (RoleName role) w = (None, w') /\
    ready role w' /\ pair_rows (store w') uid (RoleID role) = 1.
Proof.
  intros Hready. unfold AssignRole, bind.
  destruct (FindRoleByName_ready r ctx role w Hready) as (w1 & -> & _ & Hready1).
  apply AssignRole_insert_ready. exact Hready1.
Qed.

(** The thread is the function cut in two: its two steps in a row give what
    one call gives. *)
Lemma AssignRole_thread_is_AssignRole (r : repository) (ctx : Context) (uid : Z)
    (roleName : string) (other : Thread (option error)) (w : World) :
  interleave [false; false] (AssignRole_thread r ctx uid roleName) other w
  = (Done (fst (AssignRole r ctx uid roleName w)), other,
     snd (AssignRole r ctx uid roleName w)).
Proof.
  unfold AssignRole, bind, ret. simpl.
  destruct (FindRoleByName r ctx roleName w) as [[role err] w1].
  destruct err as [e|]; [reflexivity|].
  destruct role as [role|]; [|reflexivity].
  simpl. destruct (AssignRole_insert r ctx uid role w1). reflexivity.
Qed.



Section TwoCallers.
Variables (r : repository) (ctx : Context) (uid : Z) (role : Role).

Let rows (w : World) := pair_rows (store w) uid (RoleID role).



End TwoCallers.




(** C5 on the seeded store: whichever of the six orders the four statements
    of two concurrent calls take, one association row is left. *)
Example AssignRole_all_interleavings :
  List.map (fun schedule =>
              List.map (fun ur => (UserRoleUserID ur, UserRoleRoleID ur))
                (user_roles (store (snd (interleave schedule
                   (AssignRole_thread repo None 7 "admin")
                   (AssignRole_thread repo None 7 "admin") world0)))))
    [[false; false; true; true]; [false; true; false; true]; [false; true; true; false];
     [true; false; false; true]; [true; false; true; false]; [true; true; false; false]]
  = [[(7, 3)]; [(7, 3)]; [(7, 3)]; [(7, 3)]; [(7, 3)]; [(7, 3)]]%Z.
Proof. vm_compute. reflexivity. Qed.

(** ** The search pattern *)

Lemma append_nil_l (b : string) : (EmptyString +:+ b)%string = b.
Proof. reflexivity. Qed.

Lemma append_cons (x : ascii) (a b : string) :
  (String x a +:+ b)%string = String x (a +:+ b)%string.
Proof. reflexivity. Qed.

Lemma append_nil_r (a : string) : (a +:+ EmptyString)%string = a.
Proof.
  induction a as [|x a IH]; [reflexivity|]. rewrite append_cons, IH. reflexivity.
Qed.

Lemma like_any (ch : ascii) (p s : string) :
  ch = "%"%char ->
  like (String ch p) s = true <-> exists a b : string, s = (a +:+ b)%string /\ like p b = true.
Proof.
  intros ->. induction s as [|x s IH].
  - simpl. rewrite orb_false_r. split.
    + intros H. exists EmptyString, EmptyString. auto.
    + intros (a & b & Hs & Hb). destruct a; [|discriminate].
      rewrite append_nil_l in Hs. subst b. exact Hb.
  - change (like (String "%" p) (String x s))
      with (like p (String x s) || like (String "%" p) s).
    rewrite orb_true_iff, IH. split.
    + intros [H|(a & b & -> & Hb)].
      * exists EmptyString, (String x s). auto.
      * exists (String x a), b. auto.
    + intros (a & b & Hs & Hb). destruct a as [|y a].
      * left. rewrite append_nil_l in Hs. subst b. exact Hb.
      * right. rewrite append_cons in Hs. injection Hs as -> ->. exists a, b. auto.
Qed.

Lemma like_any_all (s : string) : like "%" s = true.
Proof.
  apply (like_any "%" EmptyString s eq_refl). exists s, EmptyString.
  split; [|reflexivity]. symmetry. apply append_nil_r.
Qed.

Lemma like_escaped (ch d : ascii) (p s : string) :
  ch = "\"%char ->
  like (String ch (String d p)) s = true
  <-> exists rest, s = String d rest /\ like p rest = true.
Proof.
  intros ->. simpl. destruct s as [|x s].
  - split; [discriminate | intros (rest & H & _); discriminate].
  - rewrite andb_true_iff, Ascii.eqb_eq. split.
    + intros [-> H]. exists s. auto.
    + intros (rest & H & Hl). injection H as -> ->. auto.
Qed.

Lemma like_plain (c : ascii) (p s : string) :
  Ascii.eqb c "%" = false -> Ascii.eqb c "_" = false -> Ascii.eqb c "\" = false ->
  like (String c p) s = true
  <-> exists rest, s = String c rest /\ like p rest = true.
Proof.
  intros H1 H2 H3. cbn [like]. rewrite H1, H2, H3. destruct s as [|x s].
  - split; [discriminate | intros (rest & H & _); discriminate].
  - rewrite andb_true_iff, Ascii.eqb_eq. split.
    + intros [-> H]. exists s. auto.
    + intros (rest & H & Hl). injection H as -> ->. auto.
Qed.

(** The two passes of [ReplaceAll], character by character. *)
Lemma escape_cons (c : ascii) (s : string) :
  ReplaceAll (ReplaceAll (String c s) "%" "\%") "_" "\_"
  = ((if Ascii.eqb c "%" then "\%" else if Ascii.eqb c "_" then "\_" else String c "")
     +:+ ReplaceAll (ReplaceAll s "%" "\%") "_" "\_")%string.
Proof.
  cbn [ReplaceAll]. destruct (Ascii.eqb_spec c "%") as [->|H1].
  - reflexivity.
  - cbn [ReplaceAll]. destruct (Ascii.eqb_spec c "_") as [->|H2]; reflexivity.
Qed.

(** A search text without a backslash is matched as itself at the head of
    the string, whatever follows it in the pattern. *)
Lemma like_escaped_text (t : string) :
  occurs "\" t = false ->
  forall p s : string,
    like (ReplaceAll (ReplaceAll t "%" "\%") "_" "\_" +:+ p) s = true
    <-> exists rest : string, s = (t +:+ rest)%string /\ like p rest = true.
Proof.
  induction t as [|c t IH]; intros Hno p s.
  - cbn [ReplaceAll]. rewrite append_nil_l. split.
    + intros H. exists s. auto.
    + intros (rest & Hs & H). rewrite append_nil_l in Hs. subst s. exact H.
  - cbn [occurs] in Hno. apply orb_false_iff in Hno as [Hc Hno].
    specialize (IH Hno p). rewrite escape_cons.
    assert (Htail : forall rest0 : string,
              like (ReplaceAll (ReplaceAll t "%" "\%") "_" "\_" +:+ p) rest0 = true ->
              exists rest, String c rest0 = (String c t +:+ rest)%string /\ like p rest = true).
    { intros rest0 H. apply IH in H as (rest' & -> & H). exists rest'. auto. }
    assert (Hhead : forall rest : string,
              like p rest = true ->
              exists rest0, (String c t +:+ rest)%string = String c rest0 /\
                like (ReplaceAll (ReplaceAll t "%" "\%") "_" "\_" +:+ p) rest0 = true).
    { intros rest H. exists (t +:+ rest)%string. split; [reflexivity|].
      apply IH. exists rest. auto. }
    destruct (Ascii.eqb_spec c "%") as [->|H1];
      [|destruct (Ascii.eqb_spec c "_") as [->|H2]].
    + rewrite !append_cons, append_nil_l, like_escaped by reflexivity. split.
      * intros (rest0 & -> & H). apply Htail. exact H.
      * intros (rest & -> & H). apply Hhead. exact H.
    + rewrite !append_cons, append_nil_l, like_escaped by reflexivity. split.
      * intros (rest0 & -> & H). apply Htail. exact H.
      * intros (rest & -> & H). apply Hhead. exact H.
    + rewrite !append_cons, append_nil_l.
      rewrite like_plain; [| apply Ascii.eqb_neq; exact H1 | apply Ascii.eqb_neq; exact H2 | exact Hc].
      split.
      * intros (rest0 & -> & H). apply Htail. exact H.
      * intros (rest & -> & H). apply Hhead. exact H.
Qed.

(** What the escaping achieves: for a search text without a backslash, the
    pattern matches exactly the strings that contain the text, [%] and [_]
    standing for themselves. *)
Theorem search_pattern_matches_substrings (search s : string) :
  occurs "\" search = false ->
  like (search_pattern search) s = true <-> substring_of search s.
Proof.
  intros Hno. unfold search_pattern, substring_of.
  rewrite append_cons, append_nil_l.
  rewrite like_any by reflexivity. split.
  - intros (a & b & -> & H). apply (like_escaped_text search Hno) in H as (rest & -> & _).
    exists a, rest. reflexivity.
  - intros (a & b & ->). exists a, (search +:+ b)%string. split; [reflexivity|].
    apply (like_escaped_text search Hno). exists b. split; [reflexivity | apply like_any_all].
Qed.

Lemma search_pattern_matches_substrings_witness :
  like (search_pattern "50%") "50%Off" = true /\ ~ substring_of "50%" "50X".
Proof.
  split.
  - apply (search_pattern_matches_substrings "50%" "50%Off"); [reflexivity|].
    exists EmptyString, "Off"%string. reflexivity.
  - intros Hsub.
    apply (search_pattern_matches_substrings "50%" "50X") in Hsub; [|reflexivity].
    vm_compute in Hsub. discriminate.
Defined.

(** The search of the specification's example: [50%] finds the user named
    [50%Off] and neither [50X] nor [a\b]. *)
Example ListAllUsers_search_percent :
  List.map Name (fst (fst (fst (ListAllUsers repo None
                                  (mkUserFilterParams "" "50%" "name" "asc") 1 10 world_shop))))
  = ["50%Off"]%string.
Proof. vm_compute. reflexivity. Qed.


(** ** The constraints of the store are kept

    The properties above that assume [store_ok] assume what every statement
    of the repository maintains. *)

Lemma existsb_false_not_in {A B} `{EqDecision B} (f : A -> B) (p : A -> bool) (b : B)
    (l : list A) :
  (forall x, f x = b -> p x = true) ->
  existsb p l = false -> b ∉ List.map f l.
Proof.
  intros Hp Hex Hin. apply list_elem_of_In, in_map_iff in Hin as (x & Hx & Hin).
  assert (Htrue : existsb p l = true) by (apply existsb_exists; exists x; auto).
  congruence.
Qed.

Lemma insert_user_ok (now : Time) (u u' : User) (st st' : Store) :
  store_ok st -> insert_user now u st = inr (u', st') -> store_ok st'.
Proof.
  intros [H1 H2 H3 H4 H5]. unfold insert_user.
  destruct (existsb _ (users st)) eqn:Hid; [discriminate|].
  destruct (existsb (fun x => String.eqb (Email x) (Email u)) (users st)) eqn:Hem;
    [discriminate|].
  intros H. injection H as _ <-. constructor; simpl; try assumption.
  - rewrite List.map_app. simpl. apply NoDup_app. split; [exact H1|].
    split; [|apply NoDup_singleton].
    intros i Hi Hnew. apply list_elem_of_singleton in Hnew. subst i.
    revert Hi. apply (existsb_false_not_in ID _ _ _) with (2 := Hid).
    intros x ->. apply Z.eqb_refl.
  - rewrite List.map_app. simpl. apply NoDup_app. split; [exact H2|].
    split; [|apply NoDup_singleton].
    intros e He Hnew. apply list_elem_of_singleton in Hnew. subst e.
    revert He. apply (existsb_false_not_in Email _ _ _) with (2 := Hem).
    intros x ->. apply String.eqb_refl.
Qed.

Lemma update_user_ok (cols : list string) (model : User) (id n : Z) (st st' : Store) :
  store_ok st -> update_user cols model id st = inr (n, st') -> store_ok st'.
Proof.
  intros Hok. unfold update_user.
  destruct (update_rows cols model id (users st)) as [[rows k]|]; [|discriminate].
  destruct (k =? 0)%Z; [intros H; injection H as _ <-; exact Hok|].
  destruct (bool_decide (NoDup (List.map Email rows))) eqn:Hem; [|discriminate].
  destruct (bool_decide (NoDup (List.map ID rows))) eqn:Hid; [|discriminate].
  simpl. intros H. injection H as _ <-.
  apply bool_decide_eq_true in Hem, Hid.
  destruct Hok as [H1 H2 H3 H4 H5]. constructor; simpl; assumption.
Qed.

Lemma soft_delete_user_ok (now : Time) (id n : Z) (st st' : Store) :
  store_ok st -> soft_delete_user now id st = inr (n, st') -> store_ok st'.
Proof.
  intros [H1 H2 H3 H4 H5]. unfold soft_delete_user. intros H. injection H as _ <-.
  constructor; simpl; try assumption.
  - rewrite List.map_map.
    rewrite (List.map_ext _ ID); [exact H1|].
    intros a. destruct (is_live a && (ID a =? id)%Z); reflexivity.
  - rewrite List.map_map.
    rewrite (List.map_ext _ Email); [exact H2|].
    intros a. destruct (is_live a && (ID a =? id)%Z); reflexivity.
Qed.

Lemma delete_user_role_ok (uid rid n : Z) (st st' : Store) :
  store_ok st -> delete_user_role uid rid st = inr (n, st') -> store_ok st'.
Proof.
  intros [H1 H2 H3 H4 H5]. unfold delete_user_role. intros H. injection H as _ <-.
  constructor; simpl; try assumption.
  apply NoDup_map_filter. exact H5.
Qed.

Lemma statement_ok {A} (d : bun_DB) (s : Stmt)
    (sem : Time -> Store -> error + (A * Store)) (w : World) :
  (forall t st a st', store_ok st -> sem t st = inr (a, st') -> store_ok st') ->
  store_ok (store w) -> store_ok (store (snd (statement d s sem w))).
Proof.
  intros Hsem Hok. unfold statement.
  destruct (faults w) as [|[] fs]; simpl; try exact Hok;
    destruct (sem (clock w) (store w)) as [e|[a st']] eqn:Hs; simpl;
    try exact Hok; eapply Hsem; eassumption.
Qed.

(** Every writing operation of the repository leaves a store that keeps its
    constraints. *)
Theorem repository_keeps_store_ok (r : repository) (ctx : Context) (w : World) :
  store_ok (store w) ->
  (forall user, store_ok (store (snd (Create r ctx user w)))) /\
  (forall user, store_ok (store (snd (Update r ctx user w)))) /\
  (forall id, store_ok (store (snd (Delete r ctx id w)))) /\
  (forall uid name, store_ok (store (snd (AssignRole r ctx uid name w)))) /\
  (forall uid name, store_ok (store (snd (RemoveRole r ctx uid name w)))).
Proof.
  intros Hok.
  assert (Hfind : forall name,
            store_ok (store (snd (FindRoleByName r ctx name w))) /\
            forall res w1, FindRoleByName r ctx name w = (res, w1) -> store_ok (store w1)).
  { intros name.
    assert (H : store_ok (store (snd (FindRoleByName r ctx name w)))).
    { unfold FindRoleByName, bind, ret.
      pose proof (statement_ok (getDB r ctx) (SelectRoleWhereName name)
                    (fun _ => select_role name) w) as Hst.
      destruct (statement _ _ _ w) as [[e|role] w1]; simpl in *.
      - destruct (errors_Is e ErrNoRows); simpl; apply Hst; try exact Hok;
          intros t st a st' Hst0; unfold select_role;
          destruct (List.filter _ (roles st)); [discriminate | | discriminate |];
          intros Heq; injection Heq as _ <-; exact Hst0.
      - apply Hst; [|exact Hok].
        intros t st a st' Hst0; unfold select_role.
        destruct (List.filter _ (roles st)); [discriminate|].
        intros Heq; injection Heq as _ <-; exact Hst0. }
    split; [exact H|]. intros res w1 Heq. rewrite Heq in H. exact H. }
  split; [|split; [|split; [|split]]].
  - intros user. unfold Create, bind, ret.
    pose proof (statement_ok (getDB r ctx) (InsertUser user)
                  (fun now => insert_user now user) w) as Hst.
    destruct (statement _ _ _ w) as [[e|u'] w1]; simpl in *; apply Hst; try exact Hok;
      intros t st a st' Hst0 Hins; eapply insert_user_ok; eassumption.
  - intros user. unfold Update, bind, ret.
    pose proof (statement_ok (getDB r ctx) (UpdateUser Update_columns user (ID user))
                  (fun _ => update_user Update_columns user (ID user)) w) as Hst.
    destruct (statement _ _ _ w) as [[e|n] w1]; simpl in *; apply Hst; try exact Hok;
      intros t st a st' Hst0 Hup; eapply update_user_ok; eassumption.
  - intros id. unfold Delete, bind, ret.
    pose proof (statement_ok (getDB r ctx) (SoftDeleteUser id)
                  (fun now => soft_delete_user now id) w) as Hst.
    destruct (statement _ _ _ w) as [[e|n] w1]; simpl in *; apply Hst; try exact Hok;
      intros t st a st' Hst0 Hdel; eapply soft_delete_user_ok; eassumption.
  - intros uid name. unfold AssignRole, bind, ret.
    destruct (Hfind name) as [_ Hf].
    destruct (FindRoleByName r ctx name w) as [[role err] w1] eqn:Hfr.
    specialize (Hf _ _ eq_refl).
    destruct err as [e|]; [exact Hf|]. destruct role as [role|]; [|exact Hf].
    unfold AssignRole_insert, time_Now, bind, ret.
    match goal with |- context [statement ?d ?s ?sem ?w2] =>
      pose proof (statement_ok d s sem w2) as Hst;
      destruct (statement d s sem w2) as [[e|n] w3]
    end; simpl in *; apply Hst; try exact Hf;
      intros t st a st' Hst0 Hins;
      destruct (insert_user_role_once uid (RoleID role) (clock w1) st Hst0)
        as (n' & st'' & Heq & Hok'' & _);
      rewrite Heq in Hins; injection Hins as _ <-; exact Hok''.
  - intros uid name. unfold RemoveRole, bind, ret.
    destruct (Hfind name) as [_ Hf].
    destruct (FindRoleByName r ctx name w) as [[role err] w1] eqn:Hfr.
    specialize (Hf _ _ eq_refl).
    destruct err as [e|]; [exact Hf|]. destruct role as [role|]; [|exact Hf].
    match goal with |- context [statement ?d ?s ?sem ?w2] =>
      pose proof (statement_ok d s sem w2) as Hst;
      destruct (statement d s sem w2) as [[e|n] w3]
    end; simpl in *; apply Hst; try exact Hf;
      intros t st a st' Hst0 Hdel; eapply delete_user_role_ok; eassumption.
Qed.

(** * Further properties of the repository *)

(** ** Reads *)

Lemma statement_store {A} (d : bun_DB) (s : Stmt)
    (sem : Time -> Store -> error + (A * Store)) (w : World) :
  (forall t st a st', sem t st = inr (a, st') -> st' = st) ->
  store (snd (statement d s sem w)) = store w.
Proof.
  intros Hsem. unfold statement.
  destruct (faults w) as [|[] fs]; simpl; try reflexivity;
    destruct (sem (clock w) (store w)) as [e|[a st']] eqn:Hs; simpl;
    try reflexivity; eapply Hsem; eassumption.
Qed.

Lemma select_user_reads (p : User -> bool) (st st' : Store) (x : User) :
  select_user p st = inr (x, st') -> st' = st.
Proof.
  unfold select_user. destruct (List.filter _ (users st)); [discriminate|].
  intros H. injection H as _ <-. reflexivity.
Qed.

Lemma select_role_reads (name : string) (st st' : Store) (x : Role) :
  select_role name st = inr (x, st') -> st' = st.
Proof.
  unfold select_role. destruct (List.filter _ (roles st)); [discriminate|].
  intros H. injection H as _ <-. reflexivity.
Qed.

Lemma select_users_reads (q : SelectQuery) (o : string) (n k : Z) (st st' : Store)
    (x : list User * Z) :
  select_users q o n k st = inr (x, st') -> st' = st.
Proof.
  unfold select_users. destruct (order_le o); [|discriminate].
  intros H. injection H as _ <-. reflexivity.
Qed.

Lemma FindRoleByName_store (r : repository) (ctx : Context) (name : string) (w : World) :
  store (snd (FindRoleByName r ctx name w)) = store w.
Proof.
  unfold FindRoleByName, bind, ret.
  pose proof (statement_store (getDB r ctx) (SelectRoleWhereName name)
                (fun _ => select_role name) w) as Hst.
  destruct (statement _ _ _ w) as [[e|role] w1]; simpl in *.
  - destruct (errors_Is e ErrNoRows); simpl; apply Hst;
      intros t st a st'; apply select_role_reads.
  - apply Hst. intros t st a st'. apply select_role_reads.
Qed.

(** The reading operations leave the store as it was, whether they find
    something, find nothing or fail. *)
Theorem reads_never_write (r : repository) (ctx : Context) (w : World) :
  (forall email, store (snd (FindByEmail r ctx email w)) = store w) /\
  (forall id, store (snd (FindByID r ctx id w)) = store w) /\
  (forall name, store (snd (FindRoleByName r ctx name w)) = store w) /\
  (forall uid, store (snd (GetUserRoles r ctx uid w)) = store w) /\
  (forall filters page perPage,
     store (snd (ListAllUsers r ctx filters page perPage w)) = store w).
Proof.
  split; [|split; [|split; [|split]]].
  - intros email. unfold FindByEmail, bind, ret.
    pose proof (statement_store (getDB r ctx) (SelectUserWhereEmail email)
                  (fun _ => select_user (fun u => String.eqb (Email u) email)) w) as Hst.
    destruct (statement _ _ _ w) as [[e|u] w1]; simpl in *;
      [destruct (errors_Is e ErrNoRows); simpl|];
      apply Hst; intros t st a st'; apply select_user_reads.
  - intros id. unfold FindByID, bind, ret.
    pose proof (statement_store (getDB r ctx) (SelectUserWhereID id)
                  (fun _ => select_user (fun u => (ID u =? id)%Z)) w) as Hst.
    destruct (statement _ _ _ w) as [[e|u] w1]; simpl in *;
      [destruct (errors_Is e ErrNoRows); simpl|];
      apply Hst; intros t st a st'; apply select_user_reads.
  - intros name. apply FindRoleByName_store.
  - intros uid. unfold GetUserRoles, bind, ret.
    pose proof (statement_store (getDB r ctx) (SelectRolesOfUser uid)
                  (fun _ => select_roles_of uid) w) as Hst.
    destruct (statement _ _ _ w) as [[e|rs] w1]; simpl in *;
      apply Hst; intros t st a st' H; injection H as _ <-; reflexivity.
  - intros filters page perPage. rewrite ListAllUsers_query. unfold bind, ret.
    pose proof (statement_store (getDB r ctx) (CountDistinctUserIDs (list_query filters))
                  (fun _ => count_distinct_ids (list_query filters)) w) as Hst.
    destruct (statement _ _ _ w) as [[e|n] w1]; simpl in *.
    { apply Hst. intros t st a st' H. injection H as _ <-. reflexivity. }
    assert (Hw1 : store w1 = store w).
    { apply Hst. intros t st a st' H. injection H as _ <-. reflexivity. }
    destruct (negb (default false (validSorts !! FilterSort filters))); [exact Hw1|].
    destruct (negb (String.eqb (FilterOrder filters) "asc")
              && negb (String.eqb (FilterOrder filters) "desc")); [exact Hw1|].
    match goal with |- context [statement ?d ?s ?sem w1] =>
      pose proof (statement_store d s sem w1) as Hst2;
      destruct (statement d s sem w1) as [[e|[us total]] w2]
    end; simpl in *; rewrite <- Hw1; apply Hst2;
      intros t st a st'; apply select_users_reads.
Qed.





(** A store failure is the only error of the three lookups, and it comes
    without a result. *)
Theorem lookups_fail_only_with_the_store (r : repository) (ctx : Context) (w : World) :
  faulty w = true ->
  (forall id, fst (FindByID r ctx id w) = (None, Some ErrStore)) /\
  (forall email, fst (FindByEmail r ctx email w) = (None, Some ErrStore)) /\
  (forall name, fst (FindRoleByName r ctx name w) = (None, Some ErrStore)) /\
  (forall uid, fst (GetUserRoles r ctx uid w) = ([], Some ErrStore)).
Proof.
  intros Hf. repeat split; intros x;
    unfold FindByID, FindByEmail, FindRoleByName, GetUserRoles, bind, ret;
    rewrite statement_fault by exact Hf; reflexivity.
Qed.

Lemma lookups_fail_only_with_the_store_witness :
  fst (FindByID repo None 1 (with_faults [true] world_two_roles)) = (None, Some ErrStore).
Proof.
  apply (lookups_fail_only_with_the_store repo None (with_faults [true] world_two_roles)).
  reflexivity.
Defined.

(** ** Create *)

Lemma existsb_false_iff {A} (p : A -> bool) (l : list A) :
  existsb p l = false <-> forall x, x ∈ l -> p x = false.
Proof.
  rewrite <- nonempty_filter. split.
  - intros H. apply filter_nil_iff. destruct (List.filter p l); [reflexivity | discriminate].
  - intros H. apply filter_nil_iff in H. rewrite H. reflexivity.
Qed.

Lemma insert_user_fresh (now : Time) (u : User) (st : Store) :
  (forall x, x ∈ users st ->
             ID x <> (if (ID u =? 0)%Z then users_id_seq st + 1 else ID u)%Z) ->
  (forall x, x ∈ users st -> Email x <> Email u) ->
  insert_user now u st
  = inr (mkUser (if (ID u =? 0)%Z then users_id_seq st + 1 else ID u)%Z
                (Name u) (Email u) (PasswordHash u) (Roles u)
                (if (CreatedAt u =? 0)%Z then now else CreatedAt u)
                (if (UpdatedAt u =? 0)%Z then now else UpdatedAt u) (DeletedAt u),
         mkStore (users st ++
                  [mkUser (if (ID u =? 0)%Z then users_id_seq st + 1 else ID u)%Z
                          (Name u) (Email u) (PasswordHash u) []
                          (if (CreatedAt u =? 0)%Z then now else CreatedAt u)
                          (if (UpdatedAt u =? 0)%Z then now else UpdatedAt u) (DeletedAt u)])
                 (if (ID u =? 0)%Z then users_id_seq st + 1 else users_id_seq st)%Z
                 (roles st) (user_roles st)).
Proof.
  intros Hid Hem. unfold insert_user.
  replace (existsb (fun x => (ID x =? _)%Z) (users st)) with false.
  2:{ symmetry. apply existsb_false_iff. intros x Hx. apply Z.eqb_neq.
      destruct (ID u =? 0)%Z; apply Hid; exact Hx. }
  replace (existsb (fun x => String.eqb (Email x) (Email u)) (users st)) with false.
  2:{ symmetry. apply existsb_false_iff. intros x Hx. apply String.eqb_neq.
      apply Hem. exact Hx. }
  destruct (ID u =? 0)%Z; reflexivity.
Qed.




(** [Create] with an e-mail address some row already has, live or deleted,
    fails and adds no row: the model comes back as it was given, the store
    is as it was, and the error is a uniqueness violation unless the store
    itself failed. *)
Theorem Create_duplicate_email (r : repository) (ctx : Context) (user : User) (w : World)
    (x : User) :
  x ∈ users (store w) -> Email x = Email user ->
  store (snd (Create r ctx user w)) = store w /\
  fst (fst (Create r ctx user w)) = user /\
  exists e, snd (fst (Create r ctx user w)) = Some e /\
            (faulty w = false -> exists c, e = ErrUnique c).
Proof.
  intros Hx Hem. unfold Create, bind, ret. destruct (faulty w) eqn:Hf.
  - rewrite statement_fault by exact Hf. simpl. repeat split.
    exists ErrStore. split; [reflexivity | discriminate].
  - rewrite statement_run by exact Hf. unfold insert_user.
    destruct (existsb _ (users (store w))); simpl.
    + repeat split. eexists. split; [reflexivity|]. intros _. eexists. reflexivity.
    + replace (existsb (fun y => String.eqb (Email y) (Email user)) (users (store w)))
        with true.
      * simpl. repeat split. eexists. split; [reflexivity|]. intros _. eexists. reflexivity.
      * symmetry. apply existsb_exists. exists x.
        split; [apply list_elem_of_In; exact Hx | apply String.eqb_eq; exact Hem].
Qed.

Lemma Create_duplicate_email_witness :
  store (snd (Create repo None alice world_two_roles)) = two_roles /\
  snd (fst (Create repo None alice world_two_roles)) = Some (ErrUnique "users_email_key").
Proof.
  destruct (Create_duplicate_email repo None alice world_two_roles
              (mkUser 1 "alice" "alice@example.com" "hash" [] 5 5 None))
    as (Hst & _ & e & He & _).
  - left.
  - reflexivity.
  - split; [exact Hst | reflexivity].
Defined.

(** ** The roles a lookup loads *)









(** [HasRole] and [GetRoleNames] agree: a user has a role exactly when its
    name is among the names listed, and is admin exactly when ["admin"] is. *)
Theorem HasRole_iff_listed (u : User) (name : string) :
  (HasRole u name = true <-> name ∈ GetRoleNames u) /\
  (IsAdmin u = true <-> "admin"%string ∈ GetRoleNames u).
Proof.
  assert (H : forall n, HasRole u n = true <-> n ∈ GetRoleNames u).
  { intros n. unfold HasRole. rewrite HasRole_loop_spec, GetRoleNames_map.
    rewrite list_elem_of_In, in_map_iff. split.
    - intros (role & Hin & Hn). exists role. split; [exact Hn | apply list_elem_of_In; exact Hin].
    - intros (role & Hn & Hin). exists role. split; [apply list_elem_of_In; exact Hin | exact Hn]. }
  split; [apply H | apply (H "admin"%string)].
Qed.

(** ** Update, beyond its frame *)

Lemma update_rows_count (model : User) (id : Z) (rows : list User) :
  update_rows Update_columns model id rows
  = Some (List.map (fun row => if is_live row && (ID row =? id)%Z
                               then updated_row model row else row) rows,
          Z.of_nat (length (List.filter (fun row => is_live row && (ID row =? id)%Z) rows))).
Proof.
  induction rows as [|row rows IH]; [reflexivity|].
  cbn [update_rows List.map List.filter]. rewrite IH, set_columns_Update.
  destruct (is_live row && (ID row =? id)%Z); [|reflexivity].
  cbn [length]. do 2 f_equal. lia.
Qed.

Lemma key_inj {A B} (k : A -> B) (l : list A) (x y : A) :
  NoDup (List.map k l) -> x ∈ l -> y ∈ l -> k x = k y -> x = y.
Proof.
  induction l as [|a l IH]; intros Hnd Hx Hy Hk; [inversion Hx|].
  simpl in Hnd. apply NoDup_cons in Hnd as [Hfresh Hnd].
  apply elem_of_cons in Hx as [->|Hx]; apply elem_of_cons in Hy as [->|Hy].
  - reflexivity.
  - exfalso. apply Hfresh. rewrite Hk. apply list_elem_of_In, in_map, list_elem_of_In. exact Hy.
  - exfalso. apply Hfresh. rewrite <- Hk. apply list_elem_of_In, in_map, list_elem_of_In. exact Hx.
  - apply IH; assumption.
Qed.


(** [Update] of an id no live row has is no error: the statement affects no
    row, the number of rows affected is not looked at, and the store is left
    as it was. *)
Theorem Update_absent_id (r : repository) (ctx : Context) (user : User) (w : World) :
  (forall u, u ∈ users (store w) -> is_live u = true -> ID u <> ID user) ->
  fst (Update r ctx user w) = (if faulty w then Some ErrStore else None) /\
  store (snd (Update r ctx user w)) = store w.
Proof.
  intros Hnone. unfold Update, bind, ret. destruct (faulty w) eqn:Hf.
  - rewrite statement_fault by exact Hf. auto.
  - rewrite statement_run by exact Hf. unfold update_user.
    rewrite update_rows_count.
    replace (List.filter _ (users (store w))) with (@nil User); [simpl; auto|].
    symmetry. apply filter_nil_iff. intros u Hu.
    destruct (is_live u) eqn:Hl; [simpl | reflexivity].
    apply Z.eqb_neq. apply Hnone; assumption.
Qed.

Lemma Update_absent_id_witness :
  fst (Update repo None (mkUser 9 "zed" "zed@example.com" "hash" [] 0 0 None) world_two_roles)
  = None /\
  store (snd (Update repo None (mkUser 9 "zed" "zed@example.com" "hash" [] 0 0 None)
                world_two_roles)) = two_roles.
Proof.
  apply (Update_absent_id repo None (mkUser 9 "zed" "zed@example.com" "hash" [] 0 0 None)
           world_two_roles).
  intros u Hu _. simpl in Hu.
  repeat (apply elem_of_cons in Hu as [->|Hu]; [discriminate|]). inversion Hu.
Defined.

Section UpdateOneRow.
Variables (user u : User) (st : Store).
Hypothesis st_ok : store_ok st.
Hypothesis u_row : u ∈ users st.
Hypothesis u_live : is_live u = true.
Hypothesis u_id : ID u = ID user.

Let hit := fun row : User => is_live row && (ID row =? ID user)%Z.







End UpdateOneRow.





(** ** RemoveRole and AssignRole *)

Lemma select_role_some (name : string) (st st' : Store) (role : Role) :
  select_role name st = inr (role, st') ->
  role ∈ roles st /\ RoleName role = name /\ st' = st.
Proof.
  unfold select_role.
  destruct (List.filter _ (roles st)) as [|r0 rest] eqn:Hfil; [discriminate|].
  intros H. injection H as -> <-.
  assert (Hin : In role (List.filter (fun r => String.eqb (RoleName r) name) (roles st)))
    by (rewrite Hfil; left; reflexivity).
  apply filter_In in Hin as [Hin Hname]. apply String.eqb_eq in Hname.
  split; [apply list_elem_of_In; exact Hin | auto].
Qed.

(** When no role row carries the name, [RemoveRole] fails with
    "role not found" (or with the store failure of the lookup), the lookup
    is the only statement it issues, and the store is left as it was. *)
Theorem RemoveRole_unknown_role (r : repository) (ctx : Context) (userID : Z)
    (roleName : string) (w : World) :
  (forall role, role ∈ roles (store w) -> RoleName role <> roleName) ->
  fst (RemoveRole r ctx userID roleName w)
  = Some (if faulty w then ErrStore else ErrNew "role not found") /\
  store (snd (RemoveRole r ctx userID roleName w)) = store w /\
  journal (snd (RemoveRole r ctx userID roleName w))
  = journal w ++ [(getDB r ctx, SelectRoleWhereName roleName)].
Proof.
  intros Hnone. unfold RemoveRole, FindRoleByName, bind, ret.
  destruct (faulty w) eqn:Hf.
  - rewrite statement_fault by exact Hf. simpl. auto.
  - rewrite statement_run by exact Hf.
    rewrite select_role_none by exact Hnone. simpl. auto.
Qed.

Lemma RemoveRole_unknown_role_witness :
  fst (RemoveRole repo None 1 "nosuchrole" world_two_roles) = Some (ErrNew "role not found") /\
  store (snd (RemoveRole repo None 1 "nosuchrole" world_two_roles)) = two_roles.
Proof.
  assert (H : forall role, role ∈ roles (store world_two_roles) ->
                           RoleName role <> "nosuchrole"%string).
  { intros role Hin. simpl in Hin.
    repeat (apply elem_of_cons in Hin as [->|Hin]; [discriminate|]).
    inversion Hin. }
  destruct (RemoveRole_unknown_role repo None 1 "nosuchrole" world_two_roles H)
    as (He & Hs & _).
  split; [exact He | exact Hs].
Defined.

Lemma filter_negb_none {A} (p : A -> bool) (l : list A) :
  List.filter p (List.filter (fun x => negb (p x)) l) = [].
Proof.
  apply filter_nil_iff. intros x Hx. apply list_elem_of_In, filter_In in Hx as [_ Hx].
  destruct (p x); [discriminate | reflexivity].
Qed.

Lemma filter_negb_all {A} (p : A -> bool) (l : list A) :
  List.filter p l = [] -> List.filter (fun x => negb (p x)) l = l.
Proof.
  intros H. induction l as [|a l IH]; [reflexivity|]. simpl in *.
  destruct (p a); [discriminate|]. simpl. f_equal. apply IH. exact H.
Qed.

Lemma RemoveRole_ready (r : repository) (ctx : Context) (uid : Z) (role : Role) (w : World) :
  ready role w ->
  exists w',
    RemoveRole r ctx uid (RoleName role) w = (None, w') /\
    ready role w' /\
    store w' = set_user_roles (store w)
                 (List.filter (fun ur => negb (same_pair uid (RoleID role) ur))
                              (user_roles (store w))).
Proof.
  intros Hready. unfold RemoveRole, bind, ret.
  destruct (FindRoleByName_ready r ctx role w Hready) as (w1 & -> & Hst & (Hf & Hok & Hin)).
  rewrite statement_run by (unfold faulty; rewrite Hf; reflexivity).
  cbn [delete_user_role]. eexists. split; [reflexivity|]. cbn [store].
  rewrite Hst. split; [|reflexivity].
  unfold ready. cbn [faults store]. rewrite Hf. split; [reflexivity|].
  rewrite Hst in Hok, Hin. split; [|exact Hin].
  apply (delete_user_role_ok uid (RoleID role) _ (store w) _ Hok eq_refl).
Qed.



(** [AssignRole] only ever adds: whatever its arguments and whether it
    succeeds or fails, the users and roles are as they were, every
    association row that was there still is, and at most one row is added,
    for the given user and a role that carries the given name. *)
Theorem AssignRole_only_adds (r : repository) (ctx : Context) (uid : Z) (name : string)
    (w : World) :
  users (store (snd (AssignRole r ctx uid name w))) = users (store w) /\
  roles (store (snd (AssignRole r ctx uid name w))) = roles (store w) /\
  exists added,
    user_roles (store (snd (AssignRole r ctx uid name w))) = user_roles (store w) ++ added /\
    length added <= 1 /\
    forall ur, ur ∈ added ->
      UserRoleUserID ur = uid /\
      exists role, role ∈ roles (store w) /\ RoleName role = name /\
                   UserRoleRoleID ur = RoleID role.
Proof.
  assert (Hnil : forall st, user_roles st = user_roles st ++ []) by
    (intros st; rewrite app_nil_r; reflexivity).
  assert (Hnone : forall ur : UserRole, ur ∈ @nil UserRole ->
            UserRoleUserID ur = uid /\
            exists role, role ∈ roles (store w) /\ RoleName role = name /\
                         UserRoleRoleID ur = RoleID role)
    by (intros ur Hur; inversion Hur).
  unfold AssignRole, FindRoleByName, bind, ret.
  destruct (faulty w) eqn:Hf.
  { rewrite statement_fault by exact Hf. simpl.
    repeat split. exists []. split; [apply Hnil | split; [simpl; lia | exact Hnone]]. }
  rewrite statement_run by exact Hf.
  destruct (select_role name (store w)) as [e|[role st']] eqn:Hsel.
  { destruct (errors_Is e ErrNoRows); simpl;
      (repeat split; exists []; split; [apply Hnil | split; [simpl; lia | exact Hnone]]). }
  apply select_role_some in Hsel as (Hin & Hname & ->). simpl.
  unfold AssignRole_insert, time_Now, bind, ret.
  match goal with |- context [statement ?d ?s ?sem ?w2] =>
    destruct (faulty w2) eqn:Hf2;
    [rewrite (statement_fault d s sem w2 Hf2) | rewrite (statement_run d s sem w2 Hf2)]
  end.
  { simpl. repeat split. exists []. split; [apply Hnil | split; [simpl; lia | exact Hnone]]. }
  cbn [store clock]. unfold insert_user_role.
  destruct (existsb _ (user_roles (store w))); simpl.
  - repeat split. exists []. split; [apply Hnil | split; [simpl; lia | exact Hnone]].
  - repeat split. eexists. split; [reflexivity|]. split; [simpl; lia|].
    intros ur Hur. apply list_elem_of_singleton in Hur. subst ur. simpl.
    split; [reflexivity|]. exists role. auto.
Qed.

Lemma AssignRole_ready_store (r : repository) (ctx : Context) (uid : Z) (role : Role)
    (w : World) :
  ready role w ->
  exists w',
    AssignRole r ctx uid (RoleName role) w = (None, w') /\
    ready role w' /\
    pair_rows (store w') uid (RoleID role) = 1 /\
    store w' = (if existsb (same_pair uid (RoleID role)) (user_roles (store w))
                then store w
                else set_user_roles (store w)
                       (user_roles (store w) ++ [mkUserRole uid (RoleID role) (clock w + 1)])).
Proof.
  intros Hready.
  destruct (AssignRole_ready r ctx uid role w Hready) as (w' & Hrun & Hready' & Hone).
  exists w'. split; [exact Hrun|]. split; [exact Hready'|]. split; [exact Hone|].
  revert Hrun. unfold AssignRole, FindRoleByName, bind, ret.
  destruct Hready as (Hf & Hok & Hin).
  rewrite statement_run by (unfold faulty; rewrite Hf; reflexivity).
  rewrite select_role_found by assumption. simpl.
  unfold AssignRole_insert, time_Now, bind, ret.
  rewrite statement_run by (unfold faulty; simpl; rewrite Hf; reflexivity).
  cbn [store clock]. unfold insert_user_role.
  destruct (existsb _ (user_roles (store w))); intros H; injection H as <-; reflexivity.
Qed.

(** [AssignRole] and [RemoveRole] undo each other. With the store answering
    and keeping its constraints, and [role] a role of the store: assigning
    and then removing leaves no association row for the pair, and leaves the
    whole store as it was when the user did not have the role before;
    assigning again after that leaves exactly one row. *)
Theorem AssignRole_then_RemoveRole (r : repository) (ctx : Context) (uid : Z) (role : Role)
    (w : World) :
  faults w = [] -> store_ok (store w) -> role ∈ roles (store w) ->
  exists w1 w2 w3,
    AssignRole r ctx uid (RoleName role) w = (None, w1) /\
    RemoveRole r ctx uid (RoleName role) w1 = (None, w2) /\
    AssignRole r ctx uid (RoleName role) w2 = (None, w3) /\
    pair_rows (store w2) uid (RoleID role) = 0 /\
    pair_rows (store w3) uid (RoleID role) = 1 /\
    (pair_rows (store w) uid (RoleID role) = 0 -> store w2 = store w).
Proof.
  intros Hf Hok Hin.
  assert (Hready : ready role w) by (unfold ready; auto).
  destruct (AssignRole_ready_store r ctx uid role w Hready) as (w1 & H1 & Hready1 & _ & Hst1).
  destruct (RemoveRole_ready r ctx uid role w1 Hready1) as (w2 & H2 & Hready2 & Hst2).
  destruct (AssignRole_ready r ctx uid role w2 Hready2) as (w3 & H3 & _ & Hone3).
  exists w1, w2, w3. repeat (split; [assumption|]).
  split; [rewrite Hst2; unfold pair_rows; simpl; rewrite filter_negb_none; reflexivity|].
  split; [exact Hone3|].
  unfold pair_rows. intros Hnone.
  assert (Hfil : List.filter (same_pair uid (RoleID role)) (user_roles (store w)) = [])
    by (destruct (List.filter (same_pair uid (RoleID role)) (user_roles (store w)));
        [reflexivity | discriminate]).
  assert (Hex : existsb (same_pair uid (RoleID role)) (user_roles (store w)) = false).
  { apply existsb_false_iff. apply filter_nil_iff. exact Hfil. }
  rewrite Hst2, Hst1, Hex.
  simpl. rewrite List.filter_app. simpl.
  unfold same_pair at 2. simpl. rewrite !Z.eqb_refl. simpl.
  rewrite app_nil_r, (filter_negb_all _ _ Hfil).
  transitivity (set_user_roles (store w) (user_roles (store w)));
    [reflexivity | apply set_user_roles_same].
Qed.

Lemma AssignRole_then_RemoveRole_witness :
  exists w1 w2 w3,
    AssignRole repo None 2 "admin" world_two_roles = (None, w1) /\
    RemoveRole repo None 2 "admin" w1 = (None, w2) /\
    AssignRole repo None 2 "admin" w2 = (None, w3) /\
    store w2 = two_roles.
Proof.
  destruct (AssignRole_then_RemoveRole repo None 2
              (mkRole 3 "admin" "Administrator with full system access" 1 1)
              world_two_roles)
    as (w1 & w2 & w3 & H1 & H2 & H3 & _ & _ & Hsame).
  - reflexivity.
  - constructor; apply (bool_decide_unpack _); vm_compute; exact I.
  - simpl. right. right. left.
  - exists w1, w2, w3. repeat split; try assumption. apply Hsame. reflexivity.
Defined.





(** ** Delete, beyond the soft delete *)

(** A second [Delete] changes nothing: once the first has run, the store
    after another [Delete] of the same id is the store after the first, so
    the deletion time of the user stays that of the first. *)
Theorem Delete_twice (r : repository) (ctx : Context) (id : Z) (w : World) :
  faulty w = false ->
  store (snd (Delete r ctx id (snd (Delete r ctx id w)))) = store (snd (Delete r ctx id w)) /\
  (faulty (snd (Delete r ctx id w)) = false ->
   fst (Delete r ctx id (snd (Delete r ctx id w))) = None).
Proof.
  intros Hf. rewrite (Delete_run r ctx id w Hf). cbn [snd].
  set (w1 := mkWorld _ _ _ _ _). split.
  - destruct (faulty w1) eqn:Hf1.
    + unfold Delete, bind, ret. rewrite statement_fault by exact Hf1. reflexivity.
    + rewrite (Delete_run r ctx id w1 Hf1). cbn [snd store].
      rewrite map_if_false; [apply set_users_same|].
      intros u Hu. destruct (is_live u) eqn:Hl; [simpl | reflexivity].
      apply Z.eqb_neq. revert Hl. apply (soft_delete_marks (clock w) id (users (store w))).
      exact Hu.
  - intros Hf1. rewrite (Delete_run r ctx id w1 Hf1). reflexivity.
Qed.

Lemma Delete_twice_witness :
  store (snd (Delete repo None 1 (snd (Delete repo None 1 world_two_roles))))
  = store (snd (Delete repo None 1 world_two_roles)).
Proof. apply (Delete_twice repo None 1 world_two_roles). reflexivity. Defined.

(** [Delete] touches the deletion mark of the live rows with the id and
    nothing else: every row of [users] is as it was or is such a row with
    its mark set to the time of the statement; roles, association rows and
    the id sequence are as they were, so the deleted user keeps its
    associations and [GetUserRoles] answers for it as before. *)
Theorem Delete_keeps_associations (r : repository) (ctx : Context) (id : Z) (w : World) :
  Forall2 (fun old new =>
             new = old \/
             (is_live old = true /\ ID old = id /\
              new = set_DeletedAt old (Some (clock w))))
          (users (store w)) (users (store (snd (Delete r ctx id w)))) /\
  roles (store (snd (Delete r ctx id w))) = roles (store w) /\
  user_roles (store (snd (Delete r ctx id w))) = user_roles (store w) /\
  users_id_seq (store (snd (Delete r ctx id w))) = users_id_seq (store w) /\
  forall (uid : Z) (fs : list bool),
    fst (GetUserRoles r ctx uid (with_faults fs (snd (Delete r ctx id w))))
    = fst (GetUserRoles r ctx uid (with_faults fs w)).
Proof.
  assert (Hframe :
    Forall2 (fun old new =>
               new = old \/
               (is_live old = true /\ ID old = id /\
                new = set_DeletedAt old (Some (clock w))))
            (users (store w)) (users (store (snd (Delete r ctx id w)))) /\
    roles (store (snd (Delete r ctx id w))) = roles (store w) /\
    user_roles (store (snd (Delete r ctx id w))) = user_roles (store w) /\
    users_id_seq (store (snd (Delete r ctx id w))) = users_id_seq (store w)).
  { destruct (faulty w) eqn:Hf.
    - unfold Delete, bind, ret. rewrite statement_fault by exact Hf. simpl.
      repeat split. apply Forall2_same_length_lookup_2; [reflexivity|].
      intros i x y Hx Hy. left. congruence.
    - rewrite (Delete_run r ctx id w Hf). simpl. repeat split.
      induction (users (store w)) as [|row rows IH]; simpl; constructor; [|exact IH].
      destruct (is_live row) eqn:Hl; simpl; [|left; reflexivity].
      destruct (Z.eqb_spec (ID row) id) as [Hid|Hid]; [|left; reflexivity].
      right. repeat split. exact Hid. }
  destruct Hframe as (Hu & Hr & Hur & Hseq).
  repeat split; try assumption.
  intros uid fs. rewrite !GetUserRoles_result. unfold faulty. simpl.
  rewrite (roles_of_tables (store w) _ uid Hr Hur). reflexivity.
Qed.

(** ** The page of a listing *)

Lemma order_le_valid (sort order : string) :
  sort ∈ sort_fields -> order ∈ ["asc"; "desc"]%string ->
  exists le, order_le (sort +:+ " " +:+ order)%string = Some le.
Proof.
  unfold sort_fields. intros Hs Ho.
  repeat (apply elem_of_cons in Hs as [->|Hs];
          [repeat (apply elem_of_cons in Ho as [->|Ho]; [eexists; reflexivity|]);
           inversion Ho|]).
  inversion Hs.
Qed.



Section Sorting.
Variable le : User -> User -> bool.
Hypothesis le_total : forall a b, le a b = false -> le b a = true.







End Sorting.


Lemma sort_rows_length (le : User -> User -> bool) (l : list User) :
  length (sort_rows le l) = length l.
Proof.
  unfold sort_rows. induction l as [|a l IH]; simpl; [reflexivity|].
  rewrite <- IH. generalize (foldr (insert_sorted le) [] l). intros k.
  induction k as [|y k IHk]; simpl; [reflexivity|].
  destruct (le a y); simpl; [reflexivity | rewrite IHk; reflexivity].
Qed.

Lemma wrap_int_small (z : Z) : (0 <= z < 2 ^ 63)%Z -> wrap_int z = z.
Proof. intros Hz. unfold wrap_int. rewrite Z.mod_small; lia. Qed.

(** A listing with a sort field and order the repository lets through, on a
    store that answers, succeeds with the page cut from the sorted distinct
    rows. *)
Lemma ListAllUsers_valid (r : repository) (ctx : Context) (filters : UserFilterParams)
    (page perPage : Z) (w : World) :
  faults w = [] ->
  FilterSort filters ∈ sort_fields -> FilterOrder filters ∈ ["asc"; "desc"]%string ->
  exists le,
    order_le (FilterSort filters +:+ " " +:+ FilterOrder filters)%string = Some le /\
    fst (ListAllUsers r ctx filters page perPage w)
    = (List.map (with_roles (store w))
         (limit_rows perPage
            (offset_rows (wrap_int ((page - 1) * perPage))
               (sort_rows le (remove_dups (joined_rows (store w) (list_query filters)))))),
       Z.of_nat (length (remove_dups (joined_rows (store w) (list_query filters)))),
       None).
Proof.
  intros Hf Hs Ho. destruct (order_le_valid _ _ Hs Ho) as [le Hle]. exists le.
  split; [exact Hle|].
  rewrite ListAllUsers_query. unfold bind, ret.
  rewrite statement_run by (unfold faulty; rewrite Hf; reflexivity).
  cbn [count_distinct_ids]. rewrite validSorts_lookup.
  rewrite bool_decide_eq_true_2 by exact Hs. cbn [negb].
  replace (negb (String.eqb (FilterOrder filters) "asc")
           && negb (String.eqb (FilterOrder filters) "desc")) with false.
  2:{ repeat (apply elem_of_cons in Ho as [->|Ho]; [reflexivity|]). inversion Ho. }
  rewrite statement_run by (unfold faulty; simpl; rewrite Hf; reflexivity).
  cbn [store]. unfold select_users. rewrite Hle. reflexivity.
Qed.



(** The size of a page: with valid sort parameters, the store answering,
    page and page size at least one and their product within Go's [int],
    the page holds the users from position [(page-1)*perPage] on, at most
    [perPage] of them, out of [total]; and the total is the same for every
    page and page size. *)
Theorem ListAllUsers_page_length (r : repository) (ctx : Context)
    (filters : UserFilterParams) (page perPage : Z) (w : World) :
  faults w = [] ->
  FilterSort filters ∈ sort_fields -> FilterOrder filters ∈ ["asc"; "desc"]%string ->
  (1 <= page)%Z -> (1 <= perPage)%Z -> ((page - 1) * perPage < 2 ^ 63)%Z ->
  length (fst (fst (fst (ListAllUsers r ctx filters page perPage w))))
  = Nat.min (Z.to_nat perPage)
            (Z.to_nat (snd (fst (fst (ListAllUsers r ctx filters page perPage w))))
             - Z.to_nat ((page - 1) * perPage)) /\
  forall page' perPage',
    snd (fst (fst (ListAllUsers r ctx filters page' perPage' w)))
    = snd (fst (fst (ListAllUsers r ctx filters page perPage w))).
Proof.
  intros Hf Hs Ho Hpage Hper Hprod. split.
  - destruct (ListAllUsers_valid r ctx filters page perPage w Hf Hs Ho) as (le & _ & ->).
    cbn [fst snd]. rewrite length_map, Nat2Z.id.
    rewrite wrap_int_small by nia.
    unfold limit_rows, offset_rows.
    replace (0 <? perPage)%Z with true by (symmetry; apply Z.ltb_lt; lia).
    rewrite length_take.
    destruct (0 <? (page - 1) * perPage)%Z eqn:Hoff.
    + rewrite length_drop, sort_rows_length. reflexivity.
    + apply Z.ltb_ge in Hoff. rewrite sort_rows_length.
      replace (Z.to_nat ((page - 1) * perPage)) with 0 by nia.
      rewrite Nat.sub_0_r. reflexivity.
  - intros page' perPage'.
    destruct (ListAllUsers_valid r ctx filters page perPage w Hf Hs Ho) as (le & _ & ->).
    destruct (ListAllUsers_valid r ctx filters page' perPage' w Hf Hs Ho) as (le' & _ & ->).
    reflexivity.
Qed.

Lemma ListAllUsers_page_length_witness :
  length (fst (fst (fst (ListAllUsers repo None (mkUserFilterParams "" "" "email" "asc")
                           2 2 world_shop))))
  = Nat.min (Z.to_nat 2)
            (Z.to_nat (snd (fst (fst (ListAllUsers repo None
                                        (mkUserFilterParams "" "" "email" "asc")
                                        2 2 world_shop))))
             - Z.to_nat ((2 - 1) * 2)).
Proof.
  refine (proj1 (ListAllUsers_page_length repo None (mkUserFilterParams "" "" "email" "asc")
                   2 2 world_shop _ _ _ _ _ _)).
  - reflexivity.
  - simpl. right. left.
  - simpl. left.
  - lia.
  - lia.
  - vm_compute. reflexivity.
Defined.

(** ** Who is on a listing *)








Lemma insert_sorted_NoDup (le : User -> User -> bool) (x : User) (l : list User) :
  x ∉ l -> NoDup l -> NoDup (insert_sorted le x l).
Proof.
  induction l as [|y l IH]; intros Hx Hnd; simpl.
  - apply NoDup_singleton.
  - destruct (le x y).
    + apply NoDup_cons. auto.
    + apply NoDup_cons in Hnd as [Hy Hnd]. apply NoDup_cons. split.
      * rewrite insert_sorted_elem. intros [->|Hin]; [apply Hx; left | contradiction].
      * apply IH; [|exact Hnd]. intros Hin. apply Hx. right. exact Hin.
Qed.

Lemma sort_rows_NoDup (le : User -> User -> bool) (l : list User) :
  NoDup l -> NoDup (sort_rows le l).
Proof.
  unfold sort_rows. induction l as [|a l IH]; intros Hnd; simpl; [constructor|].
  apply NoDup_cons in Hnd as [Ha Hnd]. apply insert_sorted_NoDup; [|apply IH; exact Hnd].
  intros Hin. apply Ha. apply (sort_rows_elem le a l). exact Hin.
Qed.

(** No user is on a page twice: with the primary key of [users] holding,
    the ids of the users a listing shows are pairwise different. *)
Theorem ListAllUsers_page_distinct (r : repository) (ctx : Context)
    (filters : UserFilterParams) (page perPage : Z) (w : World) :
  NoDup (List.map ID (users (store w))) ->
  NoDup (List.map ID (fst (fst (fst (ListAllUsers r ctx filters page perPage w))))).
Proof.
  intros Hpk.
  destruct (ListAllUsers_result r ctx filters page perPage w) as [[e ->]|(_ & le & ->)];
    simpl; [constructor|].
  rewrite List.map_map. simpl.
  set (P := limit_rows perPage _).
  assert (HP : NoDup P).
  { unfold P, limit_rows, offset_rows.
    assert (Hs : NoDup (sort_rows le (remove_dups (joined_rows (store w) (list_query filters)))))
      by (apply sort_rows_NoDup, NoDup_remove_dups).
    destruct (0 <? perPage)%Z, (0 <? wrap_int ((page - 1) * perPage))%Z;
      repeat first [exact Hs
                   | eapply sublist_NoDup; [|apply sublist_take]
                   | eapply sublist_NoDup; [|apply sublist_drop]]. }
  apply (NoDup_fmap_2_strong ID); [|exact HP].
  intros a b Ha Hb Hid.
  assert (Hin : forall y, y ∈ P -> y ∈ users (store w)).
  { intros y Hy. apply limit_rows_elem, offset_rows_elem in Hy.
    rewrite sort_rows_elem, elem_of_remove_dups in Hy.
    apply joined_rows_elem in Hy. apply Hy. }
  apply (key_inj ID (users (store w))); auto.
Qed.

Lemma ListAllUsers_page_distinct_witness :
  NoDup (List.map ID (fst (fst (fst (ListAllUsers repo None
                                      (mkUserFilterParams "admin" "" "name" "asc") 1 10
                                      world_twice_admin))))).
Proof.
  apply (ListAllUsers_page_distinct repo None (mkUserFilterParams "admin" "" "name" "asc")
           1 10 world_twice_admin).
  apply (bool_decide_unpack _). vm_compute. exact I.
Defined.

(** ** CreateAndAssignRole, in general *)

Lemma BeginTx_run (d : bun_DB) (w : World) :
  faults w = [] ->
  BeginTx d w
  = ((TxOpen (open_txs w), None),
     mkWorld (store w) (S (open_txs w)) (journal w ++ [(d, Begin)]) [] (clock w + 1)%Z).
Proof. intros Hf. unfold BeginTx. rewrite Hf. reflexivity. Qed.

Lemma Create_fresh (r : repository) (ctx : Context) (user : User) (w : World) :
  faults w = [] ->
  (forall x, x ∈ users (store w) -> Email x <> Email user) ->
  (forall x, x ∈ users (store w) ->
             ID x <> (if (ID user =? 0)%Z then users_id_seq (store w) + 1 else ID user)%Z) ->
  exists created w1,
    Create r ctx user w = ((created, None), w1) /\
    ID created = (if (ID user =? 0)%Z then users_id_seq (store w) + 1 else ID user)%Z /\
    Email created = Email user /\
    faults w1 = [] /\ open_txs w1 = open_txs w /\
    roles (store w1) = roles (store w) /\
    user_roles (store w1) = user_roles (store w) /\
    users (store w1) = users (store w) ++ [set_Roles created []] /\
    (store_ok (store w) -> store_ok (store w1)).
Proof.
  intros Hf Hem Hid. unfold Create, bind, ret.
  rewrite statement_run by (unfold faulty; rewrite Hf; reflexivity).
  pose proof (insert_user_fresh (clock w) user (store w) Hid Hem) as Hins.
  rewrite Hins.
  eexists. eexists. split; [reflexivity|]. simpl. rewrite Hf.
  repeat (split; [reflexivity|]).
  intros Hok. apply (insert_user_ok _ _ _ _ _ Hok Hins).
Qed.

Lemma AssignRole_unknown_role_run (r : repository) (ctx : Context) (uid : Z)
    (name : string) (w : World) :
  (forall role, role ∈ roles (store w) -> RoleName role <> name) ->
  faults w = [] ->
  fst (AssignRole r ctx uid name w) = Some (ErrNew "role not found") /\
  store (snd (AssignRole r ctx uid name w)) = store w /\
  open_txs (snd (AssignRole r ctx uid name w)) = open_txs w.
Proof.
  intros Hnone Hf. unfold AssignRole, FindRoleByName, bind, ret.
  rewrite statement_run by (unfold faulty; rewrite Hf; reflexivity).
  rewrite select_role_none by exact Hnone. simpl. auto.
Qed.

(** [CreateAndAssignRole] is not all-or-nothing. With the store answering,
    a user whose e-mail address and id no row has, and a role name no role
    carries: the call fails with "role not found", and yet the store has one
    row more in [users], the new user's, committed; and the transaction the
    call began is left open. *)
Theorem CreateAndAssignRole_keeps_user_without_role (r : repository) (ctx : Context)
    (user : User) (roleName : string) (w : World) :
  faults w = [] ->
  (forall x, x ∈ users (store w) -> Email x <> Email user) ->
  (forall x, x ∈ users (store w) ->
             ID x <> (if (ID user =? 0)%Z then users_id_seq (store w) + 1 else ID user)%Z) ->
  (forall role, role ∈ roles (store w) -> RoleName role <> roleName) ->
  exists created w',
    CreateAndAssignRole r ctx user roleName w
    = ((created, Some (ErrNew "role not found")), w') /\
    users (store w') = users (store w) ++ [set_Roles created []] /\
    Email created = Email user /\
    user_roles (store w') = user_roles (store w) /\
    open_txs w' = S (open_txs w).
Proof.
  intros Hf Hem Hid Hnone. unfold CreateAndAssignRole, bind, ret.
  rewrite (BeginTx_run _ w Hf).
  match goal with |- context [Create r ?c user ?w0] =>
    destruct (Create_fresh r c user w0)
      as (created & w1 & -> & Hcid & Hce & Hf1 & Htx & Hr & Hur & Hus & _);
      [reflexivity | exact Hem | exact Hid |]
  end.
  simpl in Htx, Hr, Hur, Hus.
  match goal with |- context [AssignRole r ?c ?i roleName w1] =>
    pose proof (AssignRole_unknown_role_run r c i roleName w1) as Hassign
  end.
  destruct Hassign as (He & Hst); [rewrite Hr; exact Hnone | exact Hf1 |].
  match goal with |- context [AssignRole r ?c ?i roleName w1] =>
    destruct (AssignRole r c i roleName w1) as [err w2]
  end.
  simpl in He, Hst. subst err.
  exists created, w2. split; [reflexivity|].
  destruct Hst as [Hst Htx2]. rewrite Hst, Htx2. auto.
Qed.

Lemma CreateAndAssignRole_keeps_user_without_role_witness :
  exists created w',
    CreateAndAssignRole repo None alice "nosuchrole" world_shop
    = ((created, Some (ErrNew "role not found")), w') /\
    users (store w') = users shop ++ [set_Roles created []] /\
    Email created = "alice@example.com"%string /\
    user_roles (store w') = [] /\
    open_txs w' = 1.
Proof.
  apply (CreateAndAssignRole_keeps_user_without_role repo None alice "nosuchrole" world_shop).
  - reflexivity.
  - intros x Hx. simpl in Hx.
    repeat (apply elem_of_cons in Hx as [->|Hx]; [discriminate|]). inversion Hx.
  - intros x Hx. simpl in Hx.
    repeat (apply elem_of_cons in Hx as [->|Hx]; [discriminate|]). inversion Hx.
  - intros role Hin. simpl in Hin.
    repeat (apply elem_of_cons in Hin as [->|Hin]; [discriminate|]). inversion Hin.
Defined.

Lemma AssignRole_ready_world (r : repository) (ctx : Context) (uid : Z) (role : Role)
    (w : World) :
  ready role w ->
  exists w',
    AssignRole r ctx uid (RoleName role) w = (None, w') /\
    pair_rows (store w') uid (RoleID role) = 1 /\
    users (store w') = users (store w) /\
    open_txs w' = open_txs w.
Proof.
  intros Hready.
  destruct (AssignRole_ready r ctx uid role w Hready) as (w' & Hrun & _ & Hone).
  exists w'. split; [exact Hrun|]. split; [exact Hone|].
  revert Hrun. unfold AssignRole, FindRoleByName, bind, ret.
  destruct Hready as (Hf & Hok & Hin).
  rewrite statement_run by (unfold faulty; rewrite Hf; reflexivity).
  rewrite select_role_found by assumption. simpl.
  unfold AssignRole_insert, time_Now, bind, ret.
  rewrite statement_run by (unfold faulty; simpl; rewrite Hf; reflexivity).
  cbn [store clock]. unfold insert_user_role.
  destruct (existsb _ (user_roles (store w))); intros H; injection H as <-;
    split; reflexivity.
Qed.

(** When both steps of [CreateAndAssignRole] succeed, both rows are in the
    store, each committed by its own statement, and the transaction the call
    began is still open: with the store answering and keeping its
    constraints, a user whose e-mail address and id no row has, and [role] a
    role of the store, the call returns the created user without error, the
    user's row is the last of [users], exactly one association row joins the
    user and the role, and one more transaction is open than before. *)
Theorem CreateAndAssignRole_succeeds_outside_transaction (r : repository) (ctx : Context)
    (user : User) (role : Role) (w : World) :
  faults w = [] -> store_ok (store w) -> role ∈ roles (store w) ->
  (forall x, x ∈ users (store w) -> Email x <> Email user) ->
  (forall x, x ∈ users (store w) ->
             ID x <> (if (ID user =? 0)%Z then users_id_seq (store w) + 1 else ID user)%Z) ->
  exists created w',
    CreateAndAssignRole r ctx user (RoleName role) w = ((created, None), w') /\
    users (store w') = users (store w) ++ [set_Roles created []] /\
    Email created = Email user /\
    pair_rows (store w') (ID created) (RoleID role) = 1 /\
    open_txs w' = S (open_txs w).
Proof.
  intros Hf Hok Hin Hem Hid. unfold CreateAndAssignRole, bind, ret.
  rewrite (BeginTx_run _ w Hf).
  match goal with |- context [Create r ?c user ?w0] =>
    destruct (Create_fresh r c user w0)
      as (created & w1 & -> & Hcid & Hce & Hf1 & Htx & Hr & Hur & Hus & Hok1);
      [reflexivity | exact Hem | exact Hid |]
  end.
  simpl in Htx, Hr, Hur, Hus, Hok1.
  assert (Hready1 : ready role w1).
  { unfold ready. split; [exact Hf1|]. split; [apply Hok1; exact Hok|].
    rewrite Hr. exact Hin. }
  match goal with |- context [AssignRole r ?c ?i (RoleName role) w1] =>
    destruct (AssignRole_ready_world r c i role w1 Hready1)
      as (w2 & -> & Hone & Hus2 & Htx2)
  end.
  exists created, w2. split; [reflexivity|].
  rewrite Hus2, Hus, Htx2, Htx. auto.
Qed.

Lemma CreateAndAssignRole_succeeds_outside_transaction_witness :
  exists created w',
    CreateAndAssignRole repo None alice "admin" world_shop = ((created, None), w') /\
    users (store w') = users shop ++ [set_Roles created []] /\
    Email created = "alice@example.com"%string /\
    pair_rows (store w') (ID created) 3 = 1 /\
    open_txs w' = 1.
Proof.
  apply (CreateAndAssignRole_succeeds_outside_transaction repo None alice
           (mkRole 3 "admin" "Administrator with full system access" 1 1) world_shop).
  - reflexivity.
  - constructor; apply (bool_decide_unpack _); vm_compute; exact I.
  - simpl. right. right. left.
  - intros x Hx. simpl in Hx.
    repeat (apply elem_of_cons in Hx as [->|Hx]; [discriminate|]). inversion Hx.
  - intros x Hx. simpl in Hx.
    repeat (apply elem_of_cons in Hx as [->|Hx]; [discriminate|]). inversion Hx.
Defined.

Lemma repository_keeps_store_ok_witness :
  store_ok (store (snd (AssignRole repo None 2 "admin" world_two_roles))) /\
  store_ok (store (snd (Delete repo None 1 world_two_roles))).
Proof.
  assert (Hok : store_ok (store world_two_roles))
    by (constructor; apply (bool_decide_unpack _); vm_compute; exact I).
  destruct (repository_keeps_store_ok repo None world_two_roles Hok)
    as (_ & _ & Hdel & Hassign & _).
  split; [apply Hassign | apply Hdel].
Defined.
